(** * web3/providers/manager.py: request managers and nonce tracking

    A shallow embedding of [RequestManager], of [ManagerWrapper], and of
    [BaseSendRawTransactionMixin] with its subclass
    [DelegatedSigningManager].

    Python objects that hold mutable state become records that are threaded
    through a state-and-exception monad: a call either returns a value or
    raises, and in both cases the mutations it made so far persist. *)

From Stdlib Require Import ZArith String List Permutation HexString.
From stdpp Require Import gmap strings list fin_maps.

Local Open Scope string_scope.
Local Open Scope Z_scope.

(** ** Python values *)

(** What [json.loads] produces: dictionaries, lists, strings, integers,
    booleans and [None].  Floating point numbers do not occur in the JSON-RPC
    traffic of this module (quantities travel as hex strings) and are absent
    from the model. *)
#[warnings="-register-all"]
Inductive json : Type :=
  | JNull
  | JBool (b : bool)
  | JNum (n : Z)
  | JStr (s : string)
  | JArr (items : list json)
  | JObj (fields : gmap string json).

(** ** Exceptions *)

(** One constructor per exception class raised in the module or by the
    libraries it calls.  [ValueError] carries the argument given at
    [raise ValueError(response["error"])]; the decoding failure of
    [json.loads], a [ValueError] of its own in Python, is kept apart as
    [JSONDecodeError] so that the two causes are told apart.  [Raised] stands
    for whatever a collaborator (provider, serializer, codec) throws. *)
Inductive exn : Type :=
  | ValueError (payload : json)
  | JSONDecodeError
  | KeyError (arg : string)
  | TypeError
  | IndexError
  | NotImplementedError (msg : string)
  | Timeout
  | Raised (what : string)
  | Unmodelled (why : string).

Inductive res (A : Type) : Type :=
  | Ok (a : A)
  | Err (e : exn).
Arguments Ok {A} a.
Arguments Err {A} e.

(** ** The state-and-exception monad *)

Definition M (S : Type) : Type -> Type := fun A => S -> res A * S.

#[global] Instance M_ret {S} : MRet (M S) := fun A a s => (Ok a, s).
#[global] Instance M_bind {S} : MBind (M S) := fun A B f m s =>
  match m s with
  | (Ok a, s') => f a s'
  | (Err e, s') => (Err e, s')
  end.

Definition raise {S A} (e : exn) : M S A := fun s => (Err e, s).
Definition lift_res {S A} (r : res A) : M S A := fun s => (r, s).
Definition modify {S} (f : S -> S) : M S unit := fun s => (Ok tt, f s).

(** [for x in xs: body(x)], collecting what the body yields. *)
Fixpoint for_each {S A B} (body : A -> M S B) (xs : list A) : M S (list B) :=
  match xs with
  | [] => mret []
  | x :: xs' => y ← body x; ys ← for_each body xs'; mret (y :: ys)
  end.

(** ** Python operators on decoded values *)

(** [key in v]: key membership on a dict, element membership on a list,
    substring test on a string, [TypeError] on the scalars. *)
Definition py_in (key : string) (v : json) : res bool :=
  match v with
  | JObj m => Ok (bool_decide (is_Some (m !! key)))
  | JArr l => Ok (existsb (fun x => match x with
                                    | JStr s => String.eqb s key
                                    | _ => false
                                    end) l)
  | JStr s => Ok (match String.index 0 key s with Some _ => true | None => false end)
  | _ => Err TypeError
  end.

(** [v[key]] for a string [key]: a [KeyError] on a dict without the key, a
    [TypeError] on everything that is not a dict. *)
Definition py_getitem (v : json) (key : string) : res json :=
  match v with
  | JObj m => match m !! key with
              | Some x => Ok x
              | None => Err (KeyError key)
              end
  | _ => Err TypeError
  end.

(** [params[0]] on a list. *)
Definition py_first (params : list json) : res json :=
  match params with
  | x :: _ => Ok x
  | [] => Err IndexError
  end.

(** [max(a, b, *rest)] on integers. *)
Definition py_max (a b : Z) (rest : list Z) : Z :=
  fold_left Z.max rest (Z.max a b).

(** [hex(n)]. *)
Definition hex (n : Z) : string := HexString.of_Z n.

(** The envelope test shared by [request_blocking] and [receive_blocking]:
<<
    if "error" in response:
        raise ValueError(response["error"])
    return response['result']
>> *)
Definition unwrap_response (response : json) : res json :=
  match py_in "error" response with
  | Err e => Err e
  | Ok true =>
      match py_getitem response "error" with
      | Ok payload => Err (ValueError payload)
      | Err e => Err e
      end
  | Ok false => py_getitem response "result"
  end.

(** ** RequestManager *)

(** The collaborators the class only consumes:
    - [net], the world behind the transport (the node, the network, the
      source of randomness);
    - [force_text] of [web3.utils.string] and [json.loads];
    - [uuid4], which draws a request id (kept in its text form);
    - [duration], the type of the [timeout] argument, and [expires], which
      tells whether the timer armed by [gevent.Timeout(timeout).start()]
      fires before the awaited task is done. *)
Class Runtime : Type := {
  net : Type;
  force_text : string -> res string;
  json_loads : string -> res json;
  uuid4 : net -> string * net;
  duration : Type;
  expires : duration -> string -> list json -> net -> bool
}.

Section RequestManager.

Context {runtime : Runtime}.

(** [provider.make_request(method, params)]: raw response bytes, or an
    exception of the transport. *)
Definition provider_t : Type := string -> list json -> net -> res string * net.

(** A task made by [gevent.spawn(self.request_blocking, method, params)]:
    not yet run to its end, or finished with the value it returned or the
    exception it raised. *)
Inductive greenlet : Type :=
  | Started (method : string) (params : list json)
  | Finished (outcome : res json).

(** The manager object with the world it talks to.  [hub] holds every task
    ever spawned, in spawn order; [pending_requests] maps a request id to a
    task handle, an index into [hub], so that popping an id drops the
    reference and not the task. *)
Record manager : Type := Manager {
  provider : provider_t;
  pending_requests : gmap string nat;
  hub : list greenlet;
  world : net
}.

Definition with_provider (p : provider_t) (s : manager) : manager :=
  Manager p (pending_requests s) (hub s) (world s).
Definition with_pending (f : gmap string nat -> gmap string nat) (s : manager) : manager :=
  Manager (provider s) (f (pending_requests s)) (hub s) (world s).
Definition with_hub (f : list greenlet -> list greenlet) (s : manager) : manager :=
  Manager (provider s) (pending_requests s) (f (hub s)) (world s).
Definition with_world (w : net) (s : manager) : manager :=
  Manager (provider s) (pending_requests s) (hub s) w.

(** [__init__] *)
Definition init (p : provider_t) (w : net) : manager := Manager p ∅ [] w.

(** [setProvider] *)
Definition setProvider (p : provider_t) : M manager unit :=
  modify (with_provider p).

(** [self.provider.make_request(method, params)] *)
Definition make_request (method : string) (params : list json) : M manager string :=
  fun s => let '(r, w) := provider s method params (world s) in (r, with_world w s).

(** [request_blocking] *)
Definition request_blocking (method : string) (params : list json) : M manager json :=
  response_raw ← make_request method params;
  text ← lift_res (force_text response_raw);
  response ← lift_res (json_loads text);
  lift_res (unwrap_response response).

(** [gevent.spawn(self.request_blocking, method, params)]: the new task
    joins the hub and its handle is returned. *)
Definition spawn (method : string) (params : list json) : M manager nat :=
  fun s => (Ok (length (hub s)), with_hub (fun h => (h ++ [Started method params])%list) s).

(** [request_async] *)
Definition request_async (method : string) (params : list json) : M manager string :=
  request_id ← (fun s => let '(u, w) := uuid4 (world s) in (Ok u, with_world w s));
  task ← spawn method params;
  _ ← modify (with_pending (insert request_id task));
  mret request_id.

(** A scheduling step of the hub: task [g], if it is still to run, runs
    [request_blocking] to its end and keeps the outcome. *)
Definition run_greenlet (g : nat) : M manager unit := fun s =>
  match hub s !! g with
  | Some (Started method params) =>
      let '(outcome, s') := request_blocking method params s in
      (Ok tt, with_hub (<[g := Finished outcome]>) s')
  | _ => (Ok tt, s)
  end.

(** The hub taking its turn through the tasks [gs], in that order. *)
Fixpoint run_greenlets (gs : list nat) : M manager unit :=
  match gs with
  | [] => mret tt
  | g :: rest => _ ← run_greenlet g; run_greenlets rest
  end.

(** [request.get(timeout=timeout)] under the timer of [receive_blocking].
    A finished task hands over its value or re-raises its exception at
    once.  For a task still to run the caller switches to the hub.
    [gevent.spawn] has queued the start of every task with the hub, which
    starts them in spawn order; the caller is resumed by a callback that
    the awaited task queues when it ends, hence behind the start of every
    task spawned by then.  So the tasks spawned before the awaited one run
    first, then the awaited one, then the tasks spawned after it, and only
    then does [get] return or re-raise.  A task runs [request_blocking] to
    its end in one go.  When the timer fires before the awaited task is
    done, [Timeout] is raised and the tasks are left as they were.  The
    timer is never cancelled; what it does once [receive_blocking] has
    returned is outside the model. *)
Definition greenlet_get (g : nat) (timeout : option duration) : M manager json := fun s =>
  match hub s !! g with
  | Some (Finished outcome) => (outcome, s)
  | Some (Started method params) =>
      let fires := match timeout with
                   | Some t => expires t method params (world s)
                   | None => false
                   end in
      if fires then (Err Timeout, s)
      else
        let earlier := (run_greenlets (seq 0 g) s).2 in
        let '(outcome, s') := request_blocking method params earlier in
        let awaited := with_hub (<[g := Finished outcome]>) s' in
        (outcome, (run_greenlets (seq (S g) (length (hub s) - S g)) awaited).2)
  | None => (Err (Unmodelled "no such task"), s)
  end.

(** [json.loads(v)] on a Python value: only text can be parsed. *)
Definition json_loads_value (v : json) : res json :=
  match v with
  | JStr text => json_loads text
  | _ => Err TypeError
  end.

Definition not_found (request_id : string) : exn :=
  KeyError ("Request for id:" +:+ request_id +:+ " not found").

(** [self.pending_requests.pop(request_id)] with its [except KeyError]. *)
Definition pop_pending (request_id : string) : M manager nat := fun s =>
  match pending_requests s !! request_id with
  | Some task => (Ok task, with_pending (delete request_id) s)
  | None => (Err (not_found request_id), s)
  end.

(** [receive_blocking] *)
Definition receive_blocking (request_id : string) (timeout : option duration)
  : M manager json :=
  request ← pop_pending request_id;
  response_raw ← greenlet_get request timeout;
  response ← lift_res (json_loads_value response_raw);
  lift_res (unwrap_response response).

(** [receive_async] *)
Definition receive_async (request_id : string) : M manager json :=
  raise (NotImplementedError "Callback pattern not implemented").

End RequestManager.

(** ** BaseSendRawTransactionMixin and DelegatedSigningManager *)

(** The order in which Python walks a [set] is not specified: any
    enumeration of the members, each once, may come out of
    [tuple(self._known_transactions[addr])]. *)
Record set_order : Type := SetOrder {
  set_iter :> gset string -> list string;
  set_iter_perm : forall X, set_iter X ≡ₚ elements X
}.

Definition canonical_order : set_order :=
  {| set_iter := elements; set_iter_perm := fun X => Permutation_refl _ |}.

(** The two concrete classes of the hierarchy.  They differ in the two
    methods the subclass overrides, [get_chain_nonce] and
    [get_transaction_signature]. *)
Inductive manager_class : Type :=
  | BaseSendRawTransactionMixin
  | DelegatedSigningManager.

(** What an interceptor is built from:
    - [cls], its class;
    - [W], the state behind the wrapped manager and the signature manager;
    - [wrapped_request_blocking], [wrapped_manager.request_blocking];
    - [signer_request_blocking], [signature_manager.request_blocking];
    - [to_decimal], [encode_hex], [decode_hex] of [web3.utils.encoding];
    - [serialize_transaction], [add_signature_to_transaction] of
      [web3.utils.transactions] and [rlp.encode(_, Transaction)], with
      [signed_txn] the type of a signed [Transaction] record;
    - [order], the iteration order of sets. *)
Class Setup : Type := {
  cls : manager_class;
  W : Type;
  wrapped_request_blocking : string -> list json -> W -> res json * W;
  signer_request_blocking : string -> list json -> W -> res json * W;
  to_decimal : json -> res Z;
  encode_hex : string -> string;
  decode_hex : json -> res string;
  signed_txn : Type;
  serialize_transaction : gmap string json -> res string;
  add_signature_to_transaction : string -> string -> res signed_txn;
  rlp_encode : signed_txn -> res string;
  order : set_order
}.

Section Interceptor.

Context {setup : Setup}.

(** The interceptor object with the world of its collaborators.
    [known_transactions] is the [defaultdict(set)]; addresses and
    transaction hashes are strings.  [calls] is a ghost record of every
    request handed to the wrapped manager, oldest first; no method reads
    it. *)
Record interceptor : Type := Interceptor {
  known_transactions : gmap string (gset string);
  inner : W;
  calls : list (string * list json)
}.

Definition with_known (f : gmap string (gset string) -> gmap string (gset string))
    (s : interceptor) : interceptor :=
  Interceptor (f (known_transactions s)) (inner s) (calls s).

(** The set tracked under an address, empty when the address has no entry. *)
Definition tracked (s : interceptor) (addr : string) : gset string :=
  default ∅ (known_transactions s !! addr).

(** [__init__] *)
Definition init_interceptor (w : W) : interceptor := Interceptor ∅ w [].

(** [ManagerWrapper.request_blocking]: forwarded unchanged. *)
Definition wrapper_request_blocking (method : string) (params : list json)
  : M interceptor json := fun s =>
  let '(r, w) := wrapped_request_blocking method params (inner s) in
  (r, Interceptor (known_transactions s) w (calls s ++ [(method, params)])%list).

(** [self.signature_manager.request_blocking] *)
Definition signature_manager_request_blocking (method : string) (params : list json)
  : M interceptor json := fun s =>
  let '(r, w) := signer_request_blocking method params (inner s) in
  (r, Interceptor (known_transactions s) w (calls s)).

(** Hashing a value used as a dictionary key or set member.  Lists and
    dictionaries are unhashable; strings are the keys of the model, and the
    other scalars, which Python would accept, are outside it. *)
Definition as_key (v : json) : res string :=
  match v with
  | JStr s => Ok s
  | JArr _ | JObj _ => Err TypeError
  | _ => Err (Unmodelled "key is not a string")
  end.

(** [self._known_transactions[addr]] on the [defaultdict]: a missing
    address gets a fresh empty set, which is stored. *)
Definition defaultdict_getitem (a : string) : M interceptor (string * gset string) :=
  fun s => match known_transactions s !! a with
           | Some X => (Ok (a, X), s)
           | None => (Ok (a, ∅), with_known (<[a := ∅]>) s)
           end.

Definition known_getitem (addr : json) : M interceptor (string * gset string) :=
  a ← lift_res (as_key addr);
  defaultdict_getitem a.

(** [self._known_transactions[addr].discard(txn_hash)] *)
Definition known_discard (addr : json) (txn_hash : string) : M interceptor unit :=
  '(a, X) ← known_getitem addr;
  modify (with_known (<[a := X ∖ {[txn_hash]}]>)).

(** [self._known_transactions[txn_from].add(result)] *)
Definition known_add (txn_from : json) (result : json) : M interceptor unit :=
  '(a, X) ← known_getitem txn_from;
  h ← lift_res (as_key result);
  modify (with_known (<[a := X ∪ {[h]}]>)).

(** The late-bound [self.request_blocking] that the methods call. *)
Definition bound_method : Type := string -> list json -> M interceptor json.

(** Lines 113-116: the nonce of a tracked transaction, as the node reports
    it. *)
Definition lookup_nonce (self : bound_method) (txn_hash : string) : M interceptor Z :=
  txn ← self "eth_getTransactionByHash" [JStr txn_hash];
  nonce ← lift_res (py_getitem txn "nonce");
  lift_res (to_decimal nonce).

(** The [for] loop of [_get_nonces_and_cleanup], run to exhaustion. *)
Fixpoint cleanup_loop (self : bound_method) (addr : json) (chain_nonce : Z)
    (hashes : list string) : M interceptor (list Z) :=
  match hashes with
  | [] => mret []
  | txn_hash :: rest =>
      txn_nonce ← lookup_nonce self txn_hash;
      if txn_nonce <=? chain_nonce then
        _ ← known_discard addr txn_hash;
        cleanup_loop self addr chain_nonce rest
      else
        yielded ← cleanup_loop self addr chain_nonce rest;
        mret (txn_nonce :: yielded)
  end.

(** [_get_nonces_and_cleanup].  The generator is consumed in full by the
    [*] of its only caller before [max] is entered, so the sequence of
    yielded nonces is returned as a list. *)
Definition _get_nonces_and_cleanup (self : bound_method) (addr : json) (chain_nonce : Z)
  : M interceptor (list Z) :=
  '(_, X) ← known_getitem addr;
  let all_known_txn_hashes := order X in
  cleanup_loop self addr chain_nonce all_known_txn_hashes.

(** [get_chain_nonce], with the override of [DelegatedSigningManager]. *)
Definition get_chain_nonce (self : bound_method) (addr : json) : M interceptor Z :=
  match cls with
  | BaseSendRawTransactionMixin =>
      count ← self "eth_getTransactionCount" [addr; JStr "pending"];
      lift_res (to_decimal count)
  | DelegatedSigningManager =>
      signer_count ← signature_manager_request_blocking
                       "eth_getTransactionCount" [addr; JStr "pending"];
      signer_nonce ← lift_res (to_decimal signer_count);
      wrapped_count ← wrapper_request_blocking
                        "eth_getTransactionCount" [addr; JStr "pending"];
      wrapped_nonce ← lift_res (to_decimal wrapped_count);
      mret (Z.max signer_nonce wrapped_nonce)
  end.

(** [get_nonce] *)
Definition get_nonce (self : bound_method) (addr : json) : M interceptor Z :=
  chain_nonce ← get_chain_nonce self addr;
  tracked_txn_nonces ← _get_nonces_and_cleanup self addr chain_nonce;
  mret (py_max 0 chain_nonce tracked_txn_nonces).

(** [get_transaction_signature], with the override of
    [DelegatedSigningManager]. *)
Definition get_transaction_signature (transaction : gmap string json)
  : M interceptor string :=
  match cls with
  | BaseSendRawTransactionMixin =>
      raise (NotImplementedError "Must be implemented by subclasses")
  | DelegatedSigningManager =>
      serialized_txn ← lift_res (serialize_transaction transaction);
      hash_to_sign ← signature_manager_request_blocking
                       "web3_sha3" [JStr (encode_hex serialized_txn)];
      txn_from ← lift_res (py_getitem (JObj transaction) "from");
      signature_hex ← signature_manager_request_blocking
                        "eth_sign" [txn_from; hash_to_sign];
      lift_res (decode_hex signature_hex)
  end.

(** [sign_and_serialize_transaction] *)
Definition sign_and_serialize_transaction (transaction : gmap string json)
  : M interceptor string :=
  serialized_txn ← lift_res (serialize_transaction transaction);
  signature ← get_transaction_signature transaction;
  signed_transaction ← lift_res (add_signature_to_transaction serialized_txn signature);
  lift_res (rlp_encode signed_transaction).

(** [dict] of the unpacked mapping [v], the copy taken on line 149. *)
Definition py_dict (v : json) : res (gmap string json) :=
  match v with
  | JObj m => Ok m
  | _ => Err TypeError
  end.

(** [d.setdefault(key, value)], kept for its effect on [d]. *)
Definition setdefault (key : string) (value : json) (d : gmap string json)
  : gmap string json :=
  match d !! key with
  | Some _ => d
  | None => <[key := value]> d
  end.

(** [construct_full_transaction].  The arguments of the first two
    [setdefault] calls are evaluated whether or not the key is present. *)
Definition construct_full_transaction (self : bound_method) (base_transaction : json)
  : M interceptor (gmap string json) :=
  txn_from ← lift_res (py_getitem base_transaction "from");
  full_txn ← lift_res (py_dict base_transaction);
  nonce ← get_nonce self txn_from;
  let full_txn := setdefault "nonce" (JNum nonce) full_txn in
  gas_price ← self "eth_gasPrice" [];
  let full_txn := setdefault "gasPrice" gas_price full_txn in
  let full_txn := setdefault "gas" (JStr (hex 90000)) full_txn in
  let full_txn := setdefault "value" (JStr "0x0") full_txn in
  let full_txn := setdefault "to" (JStr "") full_txn in
  let full_txn := setdefault "data" (JStr "") full_txn in
  mret full_txn.

Definition TXN_SENDING_METHODS : list string :=
  [ "eth_sendTransaction";
    "eth_sendRawTransaction";
    "personal_signAndSendTransaction";
    "personal_sendTransaction" ].

(** [request_blocking] of the mixin. *)
Definition request_blocking_mixin (self : bound_method) (method : string)
    (params : list json) : M interceptor json :=
  if String.eqb method "eth_sendTransaction" then
    base_transaction ← lift_res (py_first params);
    full_transaction ← construct_full_transaction self base_transaction;
    raw_transaction_bytes ← sign_and_serialize_transaction full_transaction;
    let raw_transaction_bytes_as_hex := encode_hex raw_transaction_bytes in
    self "eth_sendRawTransaction" [JStr raw_transaction_bytes_as_hex]
  else
    result ← wrapper_request_blocking method params;
    if bool_decide (method ∈ TXN_SENDING_METHODS) then
      txn ← self "eth_getTransactionByHash" [result];
      txn_from ← lift_res (py_getitem txn "from");
      _ ← known_add txn_from result;
      mret result
    else
      mret result.

(** Tying the knot: [self.request_blocking] is the method above with
    [self] bound to the same object.  [depth] counts the nested calls still
    allowed; running out of them is Python's recursion error. *)
Fixpoint bound_request_blocking (depth : nat) : bound_method :=
  match depth with
  | O => fun _ _ => raise (Raised "RecursionError")
  | S d => request_blocking_mixin (bound_request_blocking d)
  end.

(** No call chain of the class nests [request_blocking] more than three
    deep (see [bound_request_blocking_stable]). *)
Definition this : bound_method := bound_request_blocking 3.

End Interceptor.

(** ** Notions used to state the properties of the interceptor *)

Section InterceptorNotions.

Context {setup : Setup}.

(** The nonces a list of hashes resolves to: one
    [eth_getTransactionByHash] lookup per hash, in order. *)
Definition resolve_nonces (self : bound_method) (hashes : list string)
  : M interceptor (list Z) :=
  for_each (lookup_nonce self) hashes.

(** The hashes among [hashes] whose resolved nonce is at most
    [chain_nonce]. *)
Fixpoint confirmed (chain_nonce : Z) (hashes : list string) (nonces : list Z)
  : list string :=
  match hashes, nonces with
  | h :: hs, n :: ns =>
      if n <=? chain_nonce then h :: confirmed chain_nonce hs ns
      else confirmed chain_nonce hs ns
  | _, _ => []
  end.

(** [self.request_blocking(method, _)] goes straight to the wrapped
    manager and does nothing else. *)
Definition plain (self : bound_method) (method : string) : Prop :=
  forall params s, self method params s = wrapper_request_blocking method params s.

(** Two computations with the same outcome and effect from every state. *)
Definition same {A} (m m' : M interceptor A) : Prop := forall s, m s = m' s.

(** [self.request_blocking] for the requests that are not intercepted. *)
Definition direct : bound_method := wrapper_request_blocking.

(** The requests the methods of the mixin issue through
    [self.request_blocking] to learn about the chain. *)
Definition queries : list string :=
  [ "eth_getTransactionCount"; "eth_getTransactionByHash"; "eth_gasPrice" ].

(** A computation that neither reads nor writes [known_transactions]. *)
Definition known_blind {A} (m : M interceptor A) : Prop :=
  forall f s, m (with_known f s) = ((m s).1, with_known f (m s).2).

(** Every request a computation hands to the wrapped manager satisfies
    [P]. *)
Definition forwards_only (P : string -> Prop) {A} (m : M interceptor A) : Prop :=
  forall s, exists new,
    calls (m s).2 = (calls s ++ new)%list /\ Forall (fun c => P c.1) new.

(** State of the table once [self._known_transactions[addr]] has been
    read. *)
Definition touch (a : string) (s : interceptor) : interceptor :=
  match known_transactions s !! a with
  | Some _ => s
  | None => with_known (<[a := ∅]>) s
  end.

(** What is left under [a] after the pass of [_get_nonces_and_cleanup]
    over the nonces [ns]: the hashes that were tracked and were not found
    confirmed. *)
Definition pruned (a : string) (c : Z) (ns : list Z) (s : interceptor)
  : gmap string (gset string) -> gmap string (gset string) :=
  <[a := tracked s a ∖ list_to_set (confirmed c (order (tracked s a)) ns)]>.

(** The request that asks the node for the transaction behind a hash. *)
Definition by_hash (txn_hash : string) : string * list json :=
  ("eth_getTransactionByHash", [JStr txn_hash]).

(** The world behind the wrapped manager once it has been asked, in turn,
    for the transaction behind each of [hashes]. *)
Fixpoint asked (hashes : list string) (w : W) : W :=
  match hashes with
  | [] => w
  | txn_hash :: rest =>
      asked rest (wrapped_request_blocking "eth_getTransactionByHash" [JStr txn_hash] w).2
  end.

End InterceptorNotions.

(** ** Notions used to state the properties of the request manager *)

Section RequestManagerNotions.

Context {runtime : Runtime}.

(** What can happen to a manager: a call of one of its methods, or the
    hub giving a spawned task its turn. *)
Inductive event : Type :=
  | Request_blocking (method : string) (params : list json)
  | Request_async (method : string) (params : list json)
  | Receive_blocking (request_id : string) (timeout : option duration)
  | Set_provider (p : provider_t)
  | Schedule (task : nat).

(** The effect of one event; the outcome of the call is dropped. *)
Definition step (ev : event) (s : manager) : manager :=
  match ev with
  | Request_blocking method params => (request_blocking method params s).2
  | Request_async method params => (request_async method params s).2
  | Receive_blocking request_id timeout => (receive_blocking request_id timeout s).2
  | Set_provider p => (setProvider p s).2
  | Schedule task => (run_greenlet task s).2
  end.

Definition run (evs : list event) (s : manager) : manager :=
  fold_left (fun s ev => step ev s) evs s.

(** The request ids handed out by the [request_async] calls of a run. *)
Fixpoint issued (evs : list event) (s : manager) : list string :=
  match evs with
  | [] => []
  | ev :: evs' =>
      match ev with
      | Request_async method params =>
          match (request_async method params s).1 with
          | Ok request_id => [request_id]
          | Err _ => []
          end
      | _ => []
      end ++ issued evs' (step ev s)
  end%list.

(** The decoding that follows [request.get]. *)
Definition decode_task_value (response_raw : json) : res json :=
  match json_loads_value response_raw with
  | Ok response => unwrap_response response
  | Err e => Err e
  end.

End RequestManagerNotions.

(** ** A scripted transport, for running the manager on concrete inputs *)

Definition dq : string := String (Ascii.ascii_of_nat 34) EmptyString.
Definition quoted (s : string) : string := dq +:+ s +:+ dq.

Definition body_listening : string := "{" +:+ quoted "result" +:+ ": true}".
Definition body_block_number : string :=
  "{" +:+ quoted "result" +:+ ": " +:+ quoted "0x2a" +:+ "}".
Definition body_error : string :=
  "{" +:+ quoted "error" +:+ ": " +:+ quoted "unknown method" +:+ "}".
Definition body_empty : string := "{}".

(** [json.loads] on the four response bodies above. *)
Definition loads_scripted (text : string) : res json :=
  if String.eqb text body_listening then Ok (JObj {[ "result" := JBool true ]})
  else if String.eqb text body_block_number then Ok (JObj {[ "result" := JStr "0x2a" ]})
  else if String.eqb text body_error then Ok (JObj {[ "error" := JStr "unknown method" ]})
  else if String.eqb text body_empty then Ok (JObj ∅)
  else Err JSONDecodeError.

(** The world is a counter that numbers the request ids; a timer of zero
    seconds fires before any task is done. *)
Definition scripted_runtime : Runtime := {|
  net := nat;
  force_text := Ok;
  json_loads := loads_scripted;
  uuid4 := fun n => (HexString.of_nat n, S n);
  duration := nat;
  expires := fun t _ _ _ => Nat.eqb t 0
|}.

Definition scripted_provider : @provider_t scripted_runtime :=
  fun method _ w =>
    if String.eqb method "net_listening" then (Ok body_listening, w)
    else if String.eqb method "eth_blockNumber" then (Ok body_block_number, w)
    else if String.eqb method "eth_syncing" then (Ok body_empty, w)
    else (Ok body_error, w).

Definition fresh_manager : @manager scripted_runtime :=
  @init scripted_runtime scripted_provider 0%nat.

(** ** A scripted node, for running the methods on concrete inputs *)

(** The node behind the wrapped manager: what it answers to the four
    requests the interceptor sends. *)
Record node : Type := Node {
  pending_count : json;
  transactions : gmap string json;
  gas_price : json;
  broadcast : res json
}.

Definition node_request_blocking (method : string) (params : list json) (w : node)
  : res json * node :=
  if String.eqb method "eth_getTransactionCount" then (Ok (pending_count w), w)
  else if String.eqb method "eth_getTransactionByHash" then
    match params with
    | [JStr h] => (Ok (default JNull (transactions w !! h)), w)
    | _ => (Err (Raised "bad params"), w)
    end
  else if String.eqb method "eth_gasPrice" then (Ok (gas_price w), w)
  else if String.eqb method "eth_sendRawTransaction" then (broadcast w, w)
  else (Err (Raised "unsupported method"), w).

(** The key holder behind the signature manager. *)
Definition signer_node_request_blocking (method : string) (params : list json) (w : node)
  : res json * node :=
  if String.eqb method "eth_getTransactionCount" then (Ok (JStr "0x3"), w)
  else if String.eqb method "web3_sha3" then (Ok (JStr "0xdigest"), w)
  else if String.eqb method "eth_sign" then (Ok (JStr "0xsignature"), w)
  else (Err (Raised "unsupported method"), w).

(** [to_decimal] on the values that occur: hex text and integers. *)
Definition hex_to_decimal (v : json) : res Z :=
  match v with
  | JNum n => Ok n
  | JStr s => Ok (HexString.to_Z s)
  | _ => Err TypeError
  end.

Definition scripted (c : manager_class) : Setup := {|
  cls := c;
  W := node;
  wrapped_request_blocking := node_request_blocking;
  signer_request_blocking := signer_node_request_blocking;
  to_decimal := hex_to_decimal;
  encode_hex := fun b => "0x" +:+ b;
  decode_hex := fun v => match v with JStr s => Ok s | _ => Err TypeError end;
  signed_txn := string;
  serialize_transaction := fun _ => Ok "c0";
  add_signature_to_transaction := fun txn sig => Ok (txn +:+ sig);
  rlp_encode := fun t => Ok t;
  order := canonical_order
|}.

Definition txn_object (sender nonce : string) : json :=
  JObj {[ "from" := JStr sender; "nonce" := JStr nonce ]}.

(** A node that reports five pending transactions for every account and
    knows three transactions of [0xAA], with nonces 3, 6 and 8. *)
Definition node_5 (send : res json) : node := {|
  pending_count := JStr "0x5";
  transactions := {[ "0xh3" := txn_object "0xAA" "0x3";
                     "0xh6" := txn_object "0xAA" "0x6";
                     "0xh8" := txn_object "0xAA" "0x8";
                     "0xnew" := txn_object "0xAA" "0x9" ]};
  gas_price := JStr "0x4a817c800";
  broadcast := send
|}.

(** An interceptor of class [c] in front of [node_5], tracking [hashes]
    under [0xAA]. *)
Definition tracking (c : manager_class) (hashes : gset string) (send : res json)
  : @interceptor (scripted c) :=
  @Interceptor (scripted c) {[ "0xAA" := hashes ]} (node_5 send) [].

(** ** Concrete runs *)

(** An interceptor of the base class that tracks the unconfirmed
    transactions with nonces 6 and 8 of [0xAA]. *)
Definition two_outstanding : @interceptor (scripted BaseSendRawTransactionMixin) :=
  tracking BaseSendRawTransactionMixin {[ "0xh6"; "0xh8" ]} (Ok JNull).

(** An interceptor of the base class that tracks one confirmed transaction
    (nonce 3) besides the two unconfirmed ones. *)
Definition one_confirmed : @interceptor (scripted BaseSendRawTransactionMixin) :=
  tracking BaseSendRawTransactionMixin {[ "0xh3"; "0xh6"; "0xh8" ]} (Ok JNull).

(** A node that reports five pending transactions and knows two
    transactions of [0xAA], [0xfeed] with nonce 2 and [0xcafe] with nonce 7;
    and an interceptor of the base class that tracks both. *)
Definition node_ledger : node := {|
  pending_count := JStr "0x5";
  transactions := {[ "0xfeed" := txn_object "0xAA" "0x2";
                     "0xcafe" := txn_object "0xAA" "0x7" ]};
  gas_price := JStr "0x4a817c800";
  broadcast := Ok JNull
|}.

Definition feed_and_cafe : @interceptor (scripted BaseSendRawTransactionMixin) :=
  @Interceptor (scripted BaseSendRawTransactionMixin)
    {[ "0xAA" := {[ "0xfeed"; "0xcafe" ]} ]} node_ledger [].

(** A delegated signer that tracks the confirmed transaction [0xh3], in
    front of a node whose broadcast succeeds with hash [0xnew]... *)
Definition signer_up : @interceptor (scripted DelegatedSigningManager) :=
  tracking DelegatedSigningManager {[ "0xh3" ]} (Ok (JStr "0xnew")).

(** ... and in front of a node whose broadcast fails. *)
Definition signer_down : @interceptor (scripted DelegatedSigningManager) :=
  tracking DelegatedSigningManager {[ "0xh3" ]} (Err (Raised "connection refused")).

Definition send_from_AA : list json := [JObj {[ "from" := JStr "0xAA" ]}].

(** The raw transaction the scripted signer produces. *)
Definition signed_bytes : string := "c00xsignature".
Definition signed_hex : string :=
  @encode_hex (scripted DelegatedSigningManager) signed_bytes.

(** The states [signer_up] goes through while it serves an
    [eth_sendTransaction] from [0xAA]: the transaction built, the raw
    transaction broadcast, the returned hash looked up. *)
Definition built : @interceptor (scripted DelegatedSigningManager) :=
  (construct_full_transaction this (JObj {[ "from" := JStr "0xAA" ]}) signer_up).2.
Definition sent : @interceptor (scripted DelegatedSigningManager) :=
  (wrapper_request_blocking "eth_sendRawTransaction" [JStr signed_hex] built).2.
Definition looked_up : @interceptor (scripted DelegatedSigningManager) :=
  (this "eth_getTransactionByHash" [JStr "0xnew"] sent).2.

(** The value a call returned, or [fallback] when it raised. *)
Definition value_of {A} (fallback : A) (r : res A) : A :=
  match r with
  | Ok a => a
  | Err _ => fallback
  end.

(** A manager with one request in flight, under the id [0x0]. *)
Definition one_in_flight : @manager scripted_runtime :=
  (@request_async scripted_runtime "net_listening" [] fresh_manager).2.

(** The same manager after a [receive_blocking] whose timer fired at once. *)
Definition timed_out : @manager scripted_runtime :=
  (@receive_blocking scripted_runtime "0x0" (Some 0%nat) one_in_flight).2.

(** ** Further notions for the request manager *)

Section RequestManagerInvariants.

Context {runtime : Runtime}.

(** How the hub may change over time: it never loses a task, a finished
    task keeps its outcome, and a task still to run stays as it is or
    finishes. *)
Definition advances (h h' : list greenlet) : Prop :=
  (length h <= length h')%nat /\
  forall g,
    match h !! g with
    | Some (Finished outcome) => h' !! g = Some (Finished outcome)
    | Some (Started method params) =>
        h' !! g = Some (Started method params) \/
        exists outcome, h' !! g = Some (Finished outcome)
    | None => True
    end.

(** Every pending request refers to a spawned task. *)
Definition handles_valid (s : manager) : Prop :=
  forall request_id task,
    pending_requests s !! request_id = Some task -> (task < length (hub s))%nat.

(** A task that has run to its end. *)
Definition finished (task : greenlet) : bool :=
  match task with
  | Finished _ => true
  | Started _ _ => false
  end.

(** No spawned task is still to run. *)
Definition settled (s : manager) : Prop := forallb finished (hub s) = true.

End RequestManagerInvariants.

(** A transport whose every response body decodes to the JSON array
    [["error"]], and a provider that always raises. *)
Definition array_runtime : Runtime := {|
  net := unit;
  force_text := Ok;
  json_loads := fun _ => Ok (JArr [JStr "error"]);
  uuid4 := fun w => ("0x0", w);
  duration := nat;
  expires := fun _ _ _ _ => false
|}.

Definition array_manager : @manager array_runtime :=
  @init array_runtime (fun _ _ w => (Ok "[]", w)) tt.


(** A manager whose only request, to a method the node does not know, is
    in flight. *)
Definition unknown_in_flight : @manager scripted_runtime :=
  (@request_async scripted_runtime "eth_unknown" [] fresh_manager).2.

(** ** Further notions for the interceptor *)

Section InterceptorInvariants.

Context {setup : Setup}.

(** A computation that, in the tracking table, can only remove hashes, and
    only under [addr]. *)
Definition prunes_under (addr : json) {A} (m : M interceptor A) : Prop :=
  forall s,
    (forall b, tracked (m s).2 b ⊆ tracked s b) /\
    (forall b, addr <> JStr b ->
               known_transactions (m s).2 !! b = known_transactions s !! b).

(** A node and a key holder whose requests change nothing: asked again,
    they answer as before. *)
Definition frozen : Prop :=
  (forall method params w, (wrapped_request_blocking method params w).2 = w) /\
  (forall method params w, (signer_request_blocking method params w).2 = w).

(** A computation whose outcome is decided by the world behind the
    managers, and which leaves that world as it was. *)
Definition world_only {A} (m : M interceptor A) : Prop :=
  forall s s', inner s = inner s' ->
    (m s).1 = (m s').1 /\ inner (m s).2 = inner s.

End InterceptorInvariants.

(** ** ManagerWrapper *)

Section Layers.

Context {runtime : Runtime}.

(** A manager object as a wrapper sees it: a [RequestManager], or an
    instance of [ManagerWrapper] or of one of its subclasses, around
    another manager object.  A wrapper keeps nothing but [wrapped_manager],
    so the state of a stack of wrappers is that of the request manager
    inside. *)
Inductive manager_object : Type :=
  | A_RequestManager
  | A_ManagerWrapper (wrapped_manager : manager_object).

(** The number of wrappers around the request manager. *)
Fixpoint wrappers (o : manager_object) : nat :=
  match o with
  | A_RequestManager => O
  | A_ManagerWrapper wrapped_manager => S (wrappers wrapped_manager)
  end.

(** What the name [provider] is on an object: on a [RequestManager] an
    attribute of the instance, stored by [__init__]; on a wrapper the
    property of lines 78-80, which is declared without a setter. *)
Inductive attribute_kind : Type :=
  | Instance_attribute
  | Property_without_setter.

Definition provider_attribute (o : manager_object) : attribute_kind :=
  match o with
  | A_RequestManager => Instance_attribute
  | A_ManagerWrapper _ => Property_without_setter
  end.

(** The assignment [o.provider = p].  A property takes precedence over the
    dictionary of the instance, and assigning to one that has no setter
    raises [AttributeError]. *)
Definition assign_provider (o : manager_object) (p : provider_t) : M manager unit :=
  match provider_attribute o with
  | Instance_attribute => modify (with_provider p)
  | Property_without_setter => raise (Raised "AttributeError")
  end.

(** The read [o.provider]: the attribute of the instance, or the getter of
    the property, which reads [self.wrapped_manager.provider]. *)
Fixpoint read_provider (o : manager_object) (s : manager) : provider_t :=
  match o with
  | A_RequestManager => provider s
  | A_ManagerWrapper wrapped_manager => read_provider wrapped_manager s
  end.

(** [o.setProvider(p)]: [self.provider = provider] in [RequestManager],
    [self.wrapped_manager.provider = provider] in [ManagerWrapper]. *)
Definition object_setProvider (o : manager_object) (p : provider_t) : M manager unit :=
  match o with
  | A_RequestManager => setProvider p
  | A_ManagerWrapper wrapped_manager => assign_provider wrapped_manager p
  end.

End Layers.

(** ** An interceptor around a RequestManager *)

Section Stack.

Context {runtime : Runtime}.

(** [codec] supplies the class of the interceptor, the encodings, the
    serializer and the order of sets; the wrapped manager and the signature
    manager are two request managers, each with its own world and its own
    tasks.  (In one thread the two share the hub; a wait in one manager
    then runs the tasks of the other as well, which the two separate lists
    of tasks do not show.) *)
Variable codec : Setup.

Definition over_request_managers : Setup := {|
  cls := @cls codec;
  W := manager * manager;
  wrapped_request_blocking := fun method params w =>
    let '(r, wrapped) := request_blocking method params w.1 in (r, (wrapped, w.2));
  signer_request_blocking := fun method params w =>
    let '(r, signer) := request_blocking method params w.2 in (r, (w.1, signer));
  to_decimal := @to_decimal codec;
  encode_hex := @encode_hex codec;
  decode_hex := @decode_hex codec;
  signed_txn := @signed_txn codec;
  serialize_transaction := @serialize_transaction codec;
  add_signature_to_transaction := @add_signature_to_transaction codec;
  rlp_encode := @rlp_encode codec;
  order := @order codec
|}.

(** A method of the wrapped manager run on behalf of the interceptor. *)
Definition on_wrapped {A} (m : M manager A) : M (@interceptor over_request_managers) A :=
  fun s =>
    let '(r, wrapped) := m (@inner over_request_managers s).1 in
    (r, @Interceptor over_request_managers (known_transactions s)
          (wrapped, (@inner over_request_managers s).2) (calls s)).

(** [ManagerWrapper.request_async], which the mixin inherits as it is; the
    request handed over is recorded in [calls]. *)
Definition wrapper_request_async (method : string) (params : list json)
  : M (@interceptor over_request_managers) string :=
  fun s =>
    let '(r, s') := on_wrapped (request_async method params) s in
    (r, @Interceptor over_request_managers (known_transactions s') (inner s')
          (calls s' ++ [(method, params)])%list).

(** [ManagerWrapper.receive_blocking], inherited as it is. *)
Definition wrapper_receive_blocking (request_id : string) (timeout : option duration)
  : M (@interceptor over_request_managers) json :=
  on_wrapped (receive_blocking request_id timeout).

End Stack.

(** An interceptor of the base class that tracks nothing yet. *)
Definition nothing_tracked : @interceptor (scripted BaseSendRawTransactionMixin) :=
  @Interceptor (scripted BaseSendRawTransactionMixin) ∅ (node_5 (Ok JNull)) [].

(** An interceptor in front of a node that accepts a raw transaction and
    returns a hash it cannot find afterwards. *)
Definition hash_not_found : @interceptor (scripted BaseSendRawTransactionMixin) :=
  tracking BaseSendRawTransactionMixin ∅ (Ok (JStr "0xunknown")).

(** An interceptor in front of [node_ledger] that tracks, besides [0xfeed]
    and [0xcafe], the hash [0xdead] that the node does not know. *)
Definition one_lost : @interceptor (scripted BaseSendRawTransactionMixin) :=
  @Interceptor (scripted BaseSendRawTransactionMixin)
    {[ "0xAA" := {[ "0xfeed"; "0xcafe"; "0xdead" ]} ]} node_ledger [].

(** A manager with two requests in flight, under the ids [0x0] and
    [0x1]. *)
Definition two_in_flight : @manager scripted_runtime :=
  (@request_async scripted_runtime "eth_unknown" [] one_in_flight).2.

(** A provider that leaves a trace: each request adds 100 to the counter
    that is the world. *)
Definition counting_provider : @provider_t scripted_runtime :=
  fun _ _ w => (Ok body_listening, (w + 100)%nat).

(** An interceptor of the base class around two new request managers. *)
Definition stacked
  : @interceptor (@over_request_managers scripted_runtime
                    (scripted BaseSendRawTransactionMixin)) :=
  @Interceptor (@over_request_managers scripted_runtime
                  (scripted BaseSendRawTransactionMixin))
    ∅ (fresh_manager, fresh_manager) [].

(** A transaction that supplies all seven fields. *)
Definition complete_transaction : gmap string json :=
  {[ "from" := JStr "0xAA"; "to" := JStr "0xBB"; "value" := JStr "0x1";
     "data" := JStr "0x"; "gas" := JStr "0x5208"; "gasPrice" := JStr "0x1";
     "nonce" := JStr "0x7" ]}.

(** ** Tactics *)

(** Runs the first bind of the goal when its left operand is a lifted
    result. *)
Ltac run_lift := unfold mbind at 1; unfold M_bind at 1; unfold lift_res at 1.

(** * Facts *)

(** ** The monad *)

Lemma bind_ok {S A B} (m : M S A) (k : A -> M S B) s a s' :
  m s = (Ok a, s') -> (m ≫= k) s = k a s'.
Proof. intros E. unfold mbind, M_bind. by rewrite E. Qed.

Lemma bind_err {S A B} (m : M S A) (k : A -> M S B) s e s' :
  m s = (Err e, s') -> (m ≫= k) s = (Err e, s').
Proof. intros E. unfold mbind, M_bind. by rewrite E. Qed.

Lemma bind_inv_ok {S A B} (m : M S A) (k : A -> M S B) s b s' :
  (m ≫= k) s = (Ok b, s') ->
  exists a s1, m s = (Ok a, s1) /\ k a s1 = (Ok b, s').
Proof.
  unfold mbind, M_bind. destruct (m s) as [[a|e] s1]; [eauto | discriminate].
Qed.

Lemma bind_mret {S A} (m : M S A) s : (m ≫= mret) s = m s.
Proof. unfold mbind, M_bind, mret, M_ret. by destruct (m s) as [[a|e] s1]. Qed.

(** ** [max] *)

Lemma fold_max_le (l : list Z) (x : Z) : x <= fold_left Z.max l x.
Proof.
  revert x. induction l as [|y l IH]; intros x; simpl; [lia|].
  specialize (IH (Z.max x y)). lia.
Qed.

Lemma fold_max_elem (l : list Z) (x n : Z) : n ∈ l -> n <= fold_left Z.max l x.
Proof.
  revert x. induction l as [|y l IH]; intros x Hn; simpl.
  - by apply elem_of_nil in Hn.
  - apply elem_of_cons in Hn as [->|Hn]; [|by apply IH].
    etrans; [|apply fold_max_le]. lia.
Qed.

Lemma fold_max_cases (l : list Z) (x : Z) :
  fold_left Z.max l x = x \/ fold_left Z.max l x ∈ l.
Proof.
  revert x. induction l as [|y l IH]; intros x; simpl; [by left|].
  destruct (IH (Z.max x y)) as [E|E].
  - rewrite E. destruct (Z.max_spec x y) as [[_ ->]|[_ ->]]; [right; left | by left].
  - right. by right.
Qed.

Lemma py_max_lower (a b : Z) (rest : list Z) :
  a <= py_max a b rest /\ b <= py_max a b rest.
Proof. unfold py_max. pose proof (fold_max_le rest (Z.max a b)). lia. Qed.

Lemma py_max_upper (a b n : Z) (rest : list Z) : n ∈ rest -> n <= py_max a b rest.
Proof. apply fold_max_elem. Qed.

Lemma py_max_least (a b u : Z) (rest : list Z) :
  a <= u -> b <= u -> (forall n, n ∈ rest -> n <= u) -> py_max a b rest <= u.
Proof.
  intros Ha Hb Hr. unfold py_max.
  destruct (fold_max_cases rest (Z.max a b)) as [-> | Hin]; [lia | by apply Hr].
Qed.

(** The maximum is determined by its bounds, hence by the members alone. *)
Lemma py_max_members (a b : Z) (l l' : list Z) :
  (forall n, n ∈ l <-> n ∈ l') -> py_max a b l = py_max a b l'.
Proof.
  intros Hm. apply Z.le_antisymm; apply py_max_least;
    try apply py_max_lower; intros n Hn; apply py_max_upper; by apply Hm.
Qed.

Lemma py_max_perm (a b : Z) (l l' : list Z) :
  l ≡ₚ l' -> py_max a b l = py_max a b l'.
Proof. intros Hp. apply py_max_members. intros n. by rewrite Hp. Qed.

(** Dropping the nonces at or below the chain nonce does not change the
    maximum. *)
Lemma py_max_filter (c : Z) (ns : list Z) :
  py_max 0 c (filter (fun n => c < n) ns) = py_max 0 c ns.
Proof.
  apply Z.le_antisymm; apply py_max_least; try apply py_max_lower.
  - intros n [_ Hn]%list_elem_of_filter. by apply py_max_upper.
  - intros n Hn. destruct (decide (c < n)) as [Hc|Hc].
    + apply py_max_upper. by apply list_elem_of_filter.
    + pose proof (py_max_lower 0 c (filter (fun n => c < n) ns)). lia.
Qed.

(** ** The request manager *)

Section RequestManagerFacts.

Context {runtime : Runtime}.

(** [request_blocking] touches the world and nothing else. *)
Lemma request_blocking_frame method params s :
  exists w, (request_blocking method params s).2 = with_world w s.
Proof.
  unfold request_blocking, make_request, mbind, M_bind, lift_res.
  destruct (provider s method params (world s)) as [[raw|e] w]; exists w; [|done].
  destruct (force_text raw) as [text|e]; [|done].
  by destruct (json_loads text) as [response|e].
Qed.

Lemma request_blocking_pending method params s :
  pending_requests (request_blocking method params s).2 = pending_requests s.
Proof. destruct (request_blocking_frame method params s) as [w ->]. done. Qed.

Lemma request_blocking_hub method params s :
  hub (request_blocking method params s).2 = hub s.
Proof. destruct (request_blocking_frame method params s) as [w ->]. done. Qed.

Lemma run_greenlet_pending g s :
  pending_requests (run_greenlet g s).2 = pending_requests s.
Proof.
  unfold run_greenlet. destruct (hub s !! g) as [[method params|outcome]|]; [|done..].
  pose proof (request_blocking_pending method params s) as Hp.
  by destruct (request_blocking method params s).
Qed.

Lemma run_greenlet_returns g s : (run_greenlet g s).1 = Ok tt.
Proof.
  unfold run_greenlet. destruct (hub s !! g) as [[method params|outcome]|]; [|done..].
  by destruct (request_blocking method params s).
Qed.

Lemma run_greenlets_cons g rest s :
  run_greenlets (g :: rest) s = run_greenlets rest (run_greenlet g s).2.
Proof.
  simpl. unfold mbind, M_bind. pose proof (run_greenlet_returns g s) as Hr.
  destruct (run_greenlet g s) as [[[]|e] s1]; [done|discriminate].
Qed.

Lemma run_greenlets_pending gs : forall s,
  pending_requests (run_greenlets gs s).2 = pending_requests s.
Proof.
  induction gs as [|g gs IH]; intros s; [done|].
  by rewrite run_greenlets_cons, IH, run_greenlet_pending.
Qed.

Lemma greenlet_get_pending g timeout s :
  pending_requests (greenlet_get g timeout s).2 = pending_requests s.
Proof.
  unfold greenlet_get. destruct (hub s !! g) as [[method params|outcome]|]; [|done..].
  destruct (match timeout with Some t => _ | None => _ end); [done|].
  pose proof (request_blocking_pending method params (run_greenlets (seq 0 g) s).2) as Hp.
  destruct (request_blocking method params _) as [outcome s']. simpl in *.
  by rewrite run_greenlets_pending; simpl; rewrite Hp, run_greenlets_pending.
Qed.

Lemma receive_blocking_unfold request_id timeout s :
  receive_blocking request_id timeout s =
    match pending_requests s !! request_id with
    | None => (Err (not_found request_id), s)
    | Some task =>
        match greenlet_get task timeout (with_pending (delete request_id) s) with
        | (Ok response_raw, s') => (decode_task_value response_raw, s')
        | (Err e, s') => (Err e, s')
        end
    end.
Proof.
  unfold receive_blocking, pop_pending, decode_task_value, mbind, M_bind, lift_res.
  destruct (pending_requests s !! request_id) as [task|]; [|done].
  destruct (greenlet_get task timeout _) as [[v|e] s']; [|done].
  by destruct (json_loads_value v).
Qed.

Lemma receive_blocking_missing request_id timeout s :
  pending_requests s !! request_id = None ->
  receive_blocking request_id timeout s = (Err (not_found request_id), s).
Proof. intros Hn. by rewrite receive_blocking_unfold, Hn. Qed.

Lemma receive_blocking_pending request_id timeout s :
  pending_requests (receive_blocking request_id timeout s).2 =
    delete request_id (pending_requests s).
Proof.
  rewrite receive_blocking_unfold.
  destruct (pending_requests s !! request_id) as [task|] eqn:E.
  - pose proof (greenlet_get_pending task timeout (with_pending (delete request_id) s)) as Hp.
    by destruct (greenlet_get task timeout _) as [[v|e] s'].
  - simpl. by rewrite delete_id.
Qed.

Lemma request_async_unfold method params s :
  request_async method params s =
    (Ok (uuid4 (world s)).1,
     Manager (provider s)
             (<[(uuid4 (world s)).1 := length (hub s)]> (pending_requests s))
             (hub s ++ [Started method params])
             (uuid4 (world s)).2).
Proof.
  unfold request_async, spawn, mbind, M_bind, modify, mret, M_ret. simpl.
  by destruct (uuid4 (world s)) as [u w].
Qed.

(** Only [request_async] adds to the table, and only the id it returns. *)
Lemma step_pending ev s request_id :
  pending_requests s !! request_id = None ->
  request_id ∉ issued [ev] s ->
  pending_requests (step ev s) !! request_id = None.
Proof.
  intros Hn Hi. destruct ev as [m p|m p|r t|p|g]; unfold step.
  - by rewrite request_blocking_pending.
  - unfold issued in Hi. rewrite request_async_unfold in Hi. simpl in Hi.
    rewrite request_async_unfold. simpl.
    rewrite lookup_insert_ne; [done|]. intros E. apply Hi. rewrite E. by left.
  - rewrite receive_blocking_pending, lookup_delete. by case_decide.
  - done.
  - by rewrite run_greenlet_pending.
Qed.

Lemma run_pending evs : forall s request_id,
  pending_requests s !! request_id = None ->
  request_id ∉ issued evs s ->
  pending_requests (run evs s) !! request_id = None.
Proof.
  induction evs as [|ev evs IH]; intros s request_id Hn Hi; [done|].
  simpl in Hi. apply not_elem_of_app in Hi as [Hi1 Hi2].
  apply IH; [|done]. apply step_pending; [done|]. simpl. by rewrite app_nil_r.
Qed.

End RequestManagerFacts.

Section RequestManagerClaims.

Context {runtime : Runtime}.

Lemma unwrap_response_object (fields : gmap string json) :
  unwrap_response (JObj fields) =
    match fields !! "error", fields !! "result" with
    | Some payload, _ => Err (ValueError payload)
    | None, Some result => Ok result
    | None, None => Err (KeyError "result")
    end.
Proof.
  unfold unwrap_response. simpl.
  destruct (fields !! "error") as [payload|] eqn:E.
  - by rewrite bool_decide_eq_true_2 by eauto.
  - rewrite bool_decide_eq_false_2 by (by intros [? ?]).
    by destruct (fields !! "result").
Qed.

Lemma request_blocking_decoded method params s raw w text response :
  provider s method params (world s) = (Ok raw, w) ->
  force_text raw = Ok text ->
  json_loads text = Ok response ->
  request_blocking method params s = (unwrap_response response, with_world w s).
Proof.
  intros Hp Hf Hj. unfold request_blocking, make_request, mbind, M_bind, lift_res.
  by rewrite Hp, Hf, Hj.
Qed.

(** C4, as the code has it.  For a response that decodes to an object,
    [request_blocking] returns a value exactly when the object has no
    [error] key and has a [result] key, and the value is that field; it
    raises [ValueError] with the [error] field exactly when that key is
    present; with neither key it raises the [KeyError] of the missing
    [result]. *)
Theorem C4_request_blocking_unwraps_envelope (s : manager) (method : string)
    (params : list json) (raw : string) (w : net) (text : string)
    (fields : gmap string json) :
  provider s method params (world s) = (Ok raw, w) ->
  force_text raw = Ok text ->
  json_loads text = Ok (JObj fields) ->
  (forall v, (request_blocking method params s).1 = Ok v <->
             fields !! "error" = None /\ fields !! "result" = Some v) /\
  (forall payload, (request_blocking method params s).1 = Err (ValueError payload) <->
                   fields !! "error" = Some payload) /\
  (fields !! "error" = None -> fields !! "result" = None ->
   (request_blocking method params s).1 = Err (KeyError "result")).
Proof.
  intros Hp Hf Hj.
  rewrite (request_blocking_decoded _ _ _ _ _ _ _ Hp Hf Hj), unwrap_response_object. simpl.
  destruct (fields !! "error") as [payload|], (fields !! "result") as [result|];
    repeat split; try intros [? ?]; try congruence; intros; f_equal; congruence.
Qed.

Lemma greenlet_get_finished g outcome timeout s :
  hub s !! g = Some (Finished outcome) -> greenlet_get g timeout s = (outcome, s).
Proof. intros Hg. unfold greenlet_get. by rewrite Hg. Qed.

Lemma run_greenlet_started g method params s :
  hub s !! g = Some (Started method params) ->
  (run_greenlet g s).2 =
    with_hub (<[g := Finished (request_blocking method params s).1]>)
             (request_blocking method params s).2.
Proof.
  intros Hg. unfold run_greenlet. rewrite Hg.
  by destruct (request_blocking method params s).
Qed.

(** What [receive_blocking] makes of a request whose task has run to its
    end: the value the task returned is decoded once more. *)
Lemma receive_blocking_after_task method params timeout s :
  let request_id := (uuid4 (world s)).1 in
  let s1 := (request_async method params s).2 in
  let s2 := (run_greenlet (length (hub s)) s1).2 in
  (receive_blocking request_id timeout s2).1 =
    match (request_blocking method params s1).1 with
    | Ok v => decode_task_value v
    | Err e => Err e
    end.
Proof.
  intros request_id s1 s2.
  assert (Hh1 : hub s1 !! length (hub s) = Some (Started method params)).
  { unfold s1. rewrite request_async_unfold. simpl.
    rewrite lookup_app_r by lia. by rewrite Nat.sub_diag. }
  assert (Hp1 : pending_requests s1 !! request_id = Some (length (hub s))).
  { unfold s1. rewrite request_async_unfold. simpl. by rewrite lookup_insert_eq. }
  assert (Hh2 : hub s2 !! length (hub s) =
                Some (Finished (request_blocking method params s1).1)).
  { unfold s2. rewrite (run_greenlet_started _ _ _ _ Hh1). simpl.
    rewrite request_blocking_hub. apply list_lookup_insert_eq.
    by apply lookup_lt_Some in Hh1. }
  assert (Hp2 : pending_requests s2 !! request_id = Some (length (hub s))).
  { unfold s2. by rewrite run_greenlet_pending. }
  rewrite receive_blocking_unfold, Hp2.
  rewrite (greenlet_get_finished _ (request_blocking method params s1).1); [|done].
  by destruct (request_blocking method params s1).1.
Qed.

(** C3, as the code has it.  The spawned task is [request_blocking], so
    what it leaves is the already decoded [result] field; when that field
    is not text, [receive_blocking] raises [TypeError] from [json.loads]
    where [request_blocking] returned the field. *)
Theorem C3_receive_blocking_decodes_again (s : manager) (method : string)
    (params : list json) (timeout : option duration) (v : json) :
  let request_id := (uuid4 (world s)).1 in
  let s1 := (request_async method params s).2 in
  let s2 := (run_greenlet (length (hub s)) s1).2 in
  (request_blocking method params s1).1 = Ok v ->
  (forall text, v <> JStr text) ->
  (receive_blocking request_id timeout s2).1 = Err TypeError.
Proof.
  intros request_id s1 s2 Hv Hs. unfold request_id, s2, s1.
  rewrite receive_blocking_after_task. fold s1. rewrite Hv.
  unfold decode_task_value, json_loads_value.
  destruct v as [| | |text| |]; try done. by destruct (Hs text).
Qed.

(** C7. [receive_blocking] removes the entry of the id and no other; a
    second call on the same id raises the not-found [KeyError]; so does a
    call on an id that is not in the table, which it leaves as it is; and
    no id is in the table unless a [request_async] of the run so far
    returned it. *)
Theorem C7_receive_blocking_consumes_the_id (s : manager) (request_id : string) :
  (forall timeout,
     pending_requests (receive_blocking request_id timeout s).2 =
       delete request_id (pending_requests s)) /\
  (forall timeout timeout',
     (receive_blocking request_id timeout' (receive_blocking request_id timeout s).2).1 =
       Err (not_found request_id)) /\
  (forall timeout,
     pending_requests s !! request_id = None ->
     receive_blocking request_id timeout s = (Err (not_found request_id), s)) /\
  (forall p w evs timeout,
     request_id ∉ issued evs (init p w) ->
     receive_blocking request_id timeout (run evs (init p w)) =
       (Err (not_found request_id), run evs (init p w))).
Proof.
  split; [|split; [|split]].
  - intros timeout. apply receive_blocking_pending.
  - intros timeout timeout'. rewrite receive_blocking_missing; [done|].
    by rewrite receive_blocking_pending, lookup_delete_eq.
  - intros timeout. apply receive_blocking_missing.
  - intros p w evs timeout Hi. apply receive_blocking_missing.
    by apply run_pending.
Qed.

(** C10. When [receive_blocking] raises on an id that was in the table,
    the entry is gone all the same: whatever the manager does next, short
    of a [request_async] drawing the same id again, a later
    [receive_blocking] on the id raises the not-found [KeyError].  When
    the cause was the timer, the task is still in the hub, and giving it
    its turn leaves its outcome there, out of reach. *)
Theorem C10_failed_receive_loses_the_result (s : manager) (request_id : string)
    (timeout : option duration) (task : nat) (e : exn) :
  pending_requests s !! request_id = Some task ->
  (receive_blocking request_id timeout s).1 = Err e ->
  let s' := (receive_blocking request_id timeout s).2 in
  pending_requests s' !! request_id = None /\
  (forall evs timeout',
     request_id ∉ issued evs s' ->
     (receive_blocking request_id timeout' (run evs s')).1 = Err (not_found request_id)) /\
  (forall method params t,
     hub s !! task = Some (Started method params) ->
     timeout = Some t -> expires t method params (world s) = true ->
     e = Timeout /\
     hub s' !! task = Some (Started method params) /\
     hub (run [Schedule task] s') !! task =
       Some (Finished (request_blocking method params s').1)).
Proof.
  intros Hp He s'.
  assert (Hgone : pending_requests s' !! request_id = None).
  { unfold s'. by rewrite receive_blocking_pending, lookup_delete_eq. }
  split; [done|]. split.
  - intros evs timeout' Hi. rewrite receive_blocking_missing; [done|].
    by apply run_pending.
  - intros method params t Hh -> Hx.
    assert (Hr : receive_blocking request_id (Some t) s =
                 (Err Timeout, with_pending (delete request_id) s)).
    { rewrite receive_blocking_unfold, Hp. unfold greenlet_get. simpl.
      by rewrite Hh, Hx. }
    unfold s'. rewrite Hr in *. simpl in *. split; [congruence|]. split; [done|].
    unfold run. simpl.
    rewrite (run_greenlet_started task method params); [|done]. simpl.
    rewrite request_blocking_hub. simpl. apply list_lookup_insert_eq.
    by apply lookup_lt_Some in Hh.
Qed.

End RequestManagerClaims.

(** ** The interceptor *)

Create HintDb blind discriminated.

Section InterceptorFacts.

Context {setup : Setup}.

Lemma with_known_id s : with_known (fun _ => known_transactions s) s = s.
Proof. by destruct s. Qed.

Lemma with_known_compose f g s :
  with_known g (with_known f s) = with_known (fun k => g (f k)) s.
Proof. done. Qed.

(** *** Computations blind to the tracking table *)

Lemma known_blind_preserves {A} (m : M interceptor A) s :
  known_blind m -> known_transactions (m s).2 = known_transactions s.
Proof.
  intros Hm. specialize (Hm (fun _ => known_transactions s) s).
  rewrite with_known_id in Hm. by rewrite Hm.
Qed.

Lemma known_blind_ret {A} (a : A) : known_blind (mret a).
Proof. done. Qed.

Lemma known_blind_lift {A} (r : res A) : known_blind (lift_res r).
Proof. done. Qed.

Lemma known_blind_bind {A B} (m : M interceptor A) (k : A -> M interceptor B) :
  known_blind m -> (forall a, known_blind (k a)) -> known_blind (m ≫= k).
Proof.
  intros Hm Hk f s. unfold mbind, M_bind. rewrite Hm.
  destruct (m s) as [[a|e] s1]; simpl; [apply Hk | done].
Qed.

Lemma known_blind_wrapper method params :
  known_blind (wrapper_request_blocking method params).
Proof.
  intros f s. unfold wrapper_request_blocking. simpl.
  by destruct (wrapped_request_blocking method params (inner s)).
Qed.

Lemma known_blind_signer method params :
  known_blind (signature_manager_request_blocking method params).
Proof.
  intros f s. unfold signature_manager_request_blocking. simpl.
  by destruct (signer_request_blocking method params (inner s)).
Qed.

Lemma known_blind_raise {A} (e : exn) : known_blind (raise (A := A) e).
Proof. done. Qed.

Lemma known_blind_plain self method params :
  plain self method -> known_blind (self method params).
Proof.
  intros Hp f s. rewrite !Hp. apply known_blind_wrapper.
Qed.

#[local] Hint Resolve known_blind_ret known_blind_lift known_blind_raise known_blind_bind
  known_blind_wrapper known_blind_signer known_blind_plain : blind.

Lemma known_blind_lookup_nonce self h :
  plain self "eth_getTransactionByHash" -> known_blind (lookup_nonce self h).
Proof. intros Hp. unfold lookup_nonce. auto 6 with blind. Qed.

Lemma known_blind_for_each {A B} (body : A -> M interceptor B) xs :
  (forall x, known_blind (body x)) -> known_blind (for_each body xs).
Proof. intros Hb. induction xs as [|x xs IH]; simpl; auto 6 with blind. Qed.

Lemma known_blind_resolve self hs :
  plain self "eth_getTransactionByHash" -> known_blind (resolve_nonces self hs).
Proof.
  intros Hp. apply known_blind_for_each. intros h. by apply known_blind_lookup_nonce.
Qed.

Lemma known_blind_get_chain_nonce self addr :
  plain self "eth_getTransactionCount" -> known_blind (get_chain_nonce self addr).
Proof. intros Hp. unfold get_chain_nonce. destruct cls; auto 10 with blind. Qed.

Lemma known_blind_signature transaction :
  known_blind (get_transaction_signature transaction).
Proof. unfold get_transaction_signature. destruct cls; auto 10 with blind. Qed.

Lemma known_blind_sign_and_serialize transaction :
  known_blind (sign_and_serialize_transaction transaction).
Proof.
  pose proof known_blind_signature.
  unfold sign_and_serialize_transaction. auto 10 with blind.
Qed.

(** *** Nesting depth of [self.request_blocking] *)

Lemma bound_plain d method :
  method ∉ TXN_SENDING_METHODS -> plain (bound_request_blocking (S d)) method.
Proof.
  intros Hm params s. simpl. unfold request_blocking_mixin.
  destruct (String.eqb_spec method "eth_sendTransaction") as [->|_].
  { exfalso. apply Hm. unfold TXN_SENDING_METHODS. apply elem_of_cons. by left. }
  rewrite bool_decide_eq_false_2 by done. apply bind_mret.
Qed.

Lemma bound_plain_count d : plain (bound_request_blocking (S d)) "eth_getTransactionCount".
Proof. apply bound_plain. compute_done. Qed.

Lemma bound_plain_by_hash d : plain (bound_request_blocking (S d)) "eth_getTransactionByHash".
Proof. apply bound_plain. compute_done. Qed.

End InterceptorFacts.

Section NonceFacts.

Context {setup : Setup}.

Variable self : bound_method.
Hypothesis self_count : plain self "eth_getTransactionCount".
Hypothesis self_by_hash : plain self "eth_getTransactionByHash".

Lemma known_discard_tracked a X h s :
  known_transactions s !! a = Some X ->
  known_discard (JStr a) h s = (Ok tt, with_known (<[a := X ∖ {[h]}]>) s).
Proof.
  intros HX. unfold known_discard, known_getitem, defaultdict_getitem.
  unfold mbind, M_bind, lift_res. simpl. by rewrite HX.
Qed.

Lemma resolve_nonces_cons h hs s :
  resolve_nonces self (h :: hs) s =
    match lookup_nonce self h s with
    | (Ok n, s1) =>
        match resolve_nonces self hs s1 with
        | (Ok ns, s2) => (Ok (n :: ns), s2)
        | (Err e, s2) => (Err e, s2)
        end
    | (Err e, s1) => (Err e, s1)
    end.
Proof.
  unfold resolve_nonces. simpl. unfold mbind, M_bind.
  destruct (lookup_nonce self h s) as [[n|e] s1]; [|done].
  by destruct (for_each (lookup_nonce self) hs s1) as [[ns|e] s2].
Qed.

Lemma resolve_nonces_length hs : forall s ns s2,
  resolve_nonces self hs s = (Ok ns, s2) -> length ns = length hs.
Proof.
  induction hs as [|h hs IH]; intros s ns s2.
  - intros Hr. unfold resolve_nonces in Hr. simpl in Hr. unfold mret, M_ret in Hr.
    by injection Hr as <- _.
  - rewrite resolve_nonces_cons.
    destruct (lookup_nonce self h s) as [[n|e] s1]; [|done].
    destruct (resolve_nonces self hs s1) as [[ns'|e] s2'] eqn:E; [|done].
    intros [= <- _]. simpl. f_equal. by eapply IH.
Qed.

Lemma cleanup_loop_cons addr c h hs s :
  cleanup_loop self addr c (h :: hs) s =
    match lookup_nonce self h s with
    | (Ok n, s1) =>
        if n <=? c then
          match known_discard addr h s1 with
          | (Ok _, s1') => cleanup_loop self addr c hs s1'
          | (Err e, s1') => (Err e, s1')
          end
        else
          match cleanup_loop self addr c hs s1 with
          | (Ok ys, s2) => (Ok (n :: ys), s2)
          | (Err e, s2) => (Err e, s2)
          end
    | (Err e, s1) => (Err e, s1)
    end.
Proof.
  simpl. unfold mbind at 1. unfold M_bind at 1.
  destruct (lookup_nonce self h s) as [[n|e] s1]; [|done].
  destruct (n <=? c); unfold mbind, M_bind; [done|].
  by destruct (cleanup_loop self addr c hs s1) as [[ys|e] s2].
Qed.

(** The loop against the plain sequence of lookups: it raises exactly when
    a lookup does, and otherwise yields the nonces above the chain nonce
    and leaves under the address the hashes that were not confirmed. *)
Lemma cleanup_loop_spec a c hs : forall s X,
  known_transactions s !! a = Some X ->
  match resolve_nonces self hs s with
  | (Ok ns, s2) =>
      cleanup_loop self (JStr a) c hs s =
        (Ok (filter (fun n => c < n) ns),
         with_known (<[a := X ∖ list_to_set (confirmed c hs ns)]>) s2)
  | (Err e, _) => (cleanup_loop self (JStr a) c hs s).1 = Err e
  end.
Proof.
  induction hs as [|h hs IH]; intros s X HX.
  - simpl. unfold mret, M_ret. f_equal. destruct s as [k w l]. unfold with_known. simpl in *.
    f_equal. rewrite difference_empty_L. by rewrite insert_id.
  - rewrite resolve_nonces_cons, cleanup_loop_cons.
    pose proof (known_blind_preserves (lookup_nonce self h) s
                  (known_blind_lookup_nonce self h self_by_hash)) as Hk.
    destruct (lookup_nonce self h s) as [[n|e] s1]; [|done]. simpl in Hk.
    assert (HX1 : known_transactions s1 !! a = Some X) by by rewrite Hk.
    destruct (Z.leb_spec n c) as [Hle|Hgt].
    + rewrite (known_discard_tracked a X h s1 HX1).
      specialize (IH (with_known (<[a := X ∖ {[h]}]>) s1) (X ∖ {[h]})).
      rewrite (known_blind_resolve self hs self_by_hash) in IH.
      destruct (resolve_nonces self hs s1) as [[ns|e] s2]; simpl in IH.
      * rewrite IH by (simpl; by rewrite lookup_insert_eq).
        rewrite filter_cons_False by lia. f_equal.
        rewrite with_known_compose. unfold with_known. f_equal.
        rewrite insert_insert_eq. f_equal. simpl.
        destruct (Z.leb_spec n c); [|lia].
        by rewrite list_to_set_cons, difference_difference_l_L.
      * apply IH. simpl. by rewrite lookup_insert_eq.
    + specialize (IH s1 X HX1).
      destruct (resolve_nonces self hs s1) as [[ns|e] s2].
      * rewrite IH. rewrite filter_cons_True by lia.
        simpl. destruct (Z.leb_spec n c); [lia|done].
      * destruct (cleanup_loop self (JStr a) c hs s1) as [[r|e'] s']; simpl in *; congruence.
Qed.

Lemma touch_lookup a s : known_transactions (touch a s) !! a = Some (tracked s a).
Proof.
  unfold touch, tracked. destruct (known_transactions s !! a) eqn:E; simpl; [done|].
  by rewrite lookup_insert_eq.
Qed.

Lemma known_getitem_touch a s :
  known_getitem (JStr a) s = (Ok (a, tracked s a), touch a s).
Proof.
  unfold known_getitem, defaultdict_getitem, touch, tracked.
  unfold mbind, M_bind, lift_res. simpl.
  by destruct (known_transactions s !! a).
Qed.

Lemma touch_with_known a s :
  touch a s = with_known (fun k => match k !! a with Some _ => k | None => <[a := ∅]> k end) s.
Proof.
  unfold touch. destruct s as [k w l]. unfold with_known. simpl.
  by destruct (k !! a).
Qed.

Lemma cleanup_loop_ok a c hs s X ns s2 :
  known_transactions s !! a = Some X ->
  resolve_nonces self hs s = (Ok ns, s2) ->
  cleanup_loop self (JStr a) c hs s =
    (Ok (filter (fun n => c < n) ns),
     with_known (<[a := X ∖ list_to_set (confirmed c hs ns)]>) s2).
Proof.
  intros HX Hr. pose proof (cleanup_loop_spec a c hs s X HX) as Hs.
  by rewrite Hr in Hs.
Qed.

Lemma cleanup_loop_err a c hs s X e s2 :
  known_transactions s !! a = Some X ->
  resolve_nonces self hs s = (Err e, s2) ->
  (cleanup_loop self (JStr a) c hs s).1 = Err e.
Proof.
  intros HX Hr. pose proof (cleanup_loop_spec a c hs s X HX) as Hs.
  by rewrite Hr in Hs.
Qed.

Lemma resolve_nonces_touch a hs s :
  resolve_nonces self hs (touch a s) =
    ((resolve_nonces self hs s).1, touch a (resolve_nonces self hs s).2).
Proof.
  rewrite !touch_with_known. apply known_blind_resolve, self_by_hash.
Qed.

(** [_get_nonces_and_cleanup] when every lookup succeeds. *)
Lemma get_nonces_and_cleanup_ok a c s ns s2 :
  resolve_nonces self (order (tracked s a)) s = (Ok ns, s2) ->
  _get_nonces_and_cleanup self (JStr a) c s =
    (Ok (filter (fun n => c < n) ns),
     with_known (<[a := tracked s a ∖ list_to_set (confirmed c (order (tracked s a)) ns)]>) s2).
Proof.
  intros Hr. unfold _get_nonces_and_cleanup.
  unfold mbind at 1. unfold M_bind at 1. rewrite known_getitem_touch.
  rewrite (cleanup_loop_ok a c _ (touch a s) (tracked s a) ns (touch a s2)).
  - f_equal. rewrite touch_with_known, with_known_compose. unfold with_known. f_equal.
    destruct (known_transactions s2 !! a); [done|]. by rewrite insert_insert_eq.
  - apply touch_lookup.
  - by rewrite resolve_nonces_touch, Hr.
Qed.

(** [_get_nonces_and_cleanup] raises what the first failing lookup raises. *)
Lemma get_nonces_and_cleanup_err a c s e s2 :
  resolve_nonces self (order (tracked s a)) s = (Err e, s2) ->
  (_get_nonces_and_cleanup self (JStr a) c s).1 = Err e.
Proof.
  intros Hr. unfold _get_nonces_and_cleanup.
  unfold mbind at 1. unfold M_bind at 1. rewrite known_getitem_touch.
  apply (cleanup_loop_err a c _ (touch a s) (tracked s a) e (touch a s2)).
  - apply touch_lookup.
  - by rewrite resolve_nonces_touch, Hr.
Qed.

End NonceFacts.

Section NonceTheorems.

Context {setup : Setup}.

Variable self : bound_method.
Hypothesis self_count : plain self "eth_getTransactionCount".
Hypothesis self_by_hash : plain self "eth_getTransactionByHash".

Lemma get_chain_nonce_tracked addr s b :
  tracked (get_chain_nonce self addr s).2 b = tracked s b.
Proof.
  unfold tracked.
  by rewrite (known_blind_preserves _ s (known_blind_get_chain_nonce self addr self_count)).
Qed.

Lemma get_nonce_ok a s c s1 ns s2 :
  get_chain_nonce self (JStr a) s = (Ok c, s1) ->
  resolve_nonces self (order (tracked s a)) s1 = (Ok ns, s2) ->
  get_nonce self (JStr a) s = (Ok (py_max 0 c ns), with_known (pruned a c ns s) s2).
Proof.
  intros Hc Hr. unfold get_nonce. rewrite (bind_ok _ _ _ _ _ Hc).
  pose proof (get_chain_nonce_tracked (JStr a) s a) as Ht. rewrite Hc in Ht. simpl in Ht.
  rewrite <- Ht in Hr.
  rewrite (bind_ok _ _ _ _ _ (get_nonces_and_cleanup_ok self self_by_hash a c s1 ns s2 Hr)).
  unfold mret, M_ret, pruned. by rewrite py_max_filter, Ht.
Qed.

Lemma get_nonce_inv a s n s' :
  get_nonce self (JStr a) s = (Ok n, s') ->
  exists c s1 ns s2,
    get_chain_nonce self (JStr a) s = (Ok c, s1) /\
    resolve_nonces self (order (tracked s a)) s1 = (Ok ns, s2) /\
    n = py_max 0 c ns /\ s' = with_known (pruned a c ns s) s2.
Proof.
  intros Hg. pose proof Hg as Hg'. unfold get_nonce in Hg'.
  apply bind_inv_ok in Hg' as (c & s1 & Hc & Hrest).
  apply bind_inv_ok in Hrest as (ys & s1' & Hcl & _).
  pose proof (get_chain_nonce_tracked (JStr a) s a) as Ht. rewrite Hc in Ht. simpl in Ht.
  destruct (resolve_nonces self (order (tracked s a)) s1) as [[ns|e] s2] eqn:Hr.
  - exists c, s1, ns, s2. rewrite (get_nonce_ok a s c s1 ns s2 Hc Hr) in Hg.
    injection Hg as <- <-. done.
  - rewrite <- Ht in Hr.
    pose proof (get_nonces_and_cleanup_err self self_by_hash a c s1 e s2 Hr) as He.
    rewrite Hcl in He. discriminate.
Qed.

Lemma confirmed_elem c hs ns h n :
  (h, n) ∈ zip hs ns -> n <= c -> h ∈ confirmed c hs ns.
Proof.
  revert ns. induction hs as [|h0 hs IH]; intros [|n0 ns]; simpl;
    try (by intros ?%elem_of_nil).
  intros [[= -> ->]|Hin]%elem_of_cons Hle.
  - destruct (Z.leb_spec n0 c); [by left|lia].
  - destruct (n0 <=? c); [right|]; by apply IH.
Qed.

Lemma zip_total (hs : list string) (ns : list Z) h :
  length ns = length hs -> h ∈ hs -> exists n, (h, n) ∈ zip hs ns.
Proof.
  revert ns. induction hs as [|h0 hs IH]; intros [|n0 ns] Hlen Hin; simpl in *;
    try discriminate; try (by apply elem_of_nil in Hin).
  apply elem_of_cons in Hin as [->|Hin].
  - exists n0. by left.
  - destruct (IH ns) as [n Hn]; [congruence|done|]. exists n. by right.
Qed.

Lemma tracked_pruned a c ns s s2 :
  tracked (with_known (pruned a c ns s) s2) a =
    tracked s a ∖ list_to_set (confirmed c (order (tracked s a)) ns).
Proof. unfold tracked, pruned. simpl. by rewrite lookup_insert_eq. Qed.

Lemma order_elem (X : gset string) h : h ∈ order X <-> h ∈ X.
Proof. by rewrite (set_iter_perm order X), elem_of_elements. Qed.

Lemma get_nonce_at_least_chain a s n s' :
  get_nonce self (JStr a) s = (Ok n, s') ->
  exists c s1, get_chain_nonce self (JStr a) s = (Ok c, s1) /\ c <= n.
Proof.
  intros (c & s1 & ns & s2 & Hc & _ & -> & _)%get_nonce_inv.
  exists c, s1. split; [done|]. apply py_max_lower.
Qed.

Lemma get_nonce_prunes a s n s' :
  get_nonce self (JStr a) s = (Ok n, s') ->
  exists c s1 ns s2,
    get_chain_nonce self (JStr a) s = (Ok c, s1) /\
    resolve_nonces self (order (tracked s a)) s1 = (Ok ns, s2) /\
    (forall h, h ∈ tracked s' a ->
       exists nonce, (h, nonce) ∈ zip (order (tracked s a)) ns /\ c < nonce) /\
    (forall h nonce, (h, nonce) ∈ zip (order (tracked s a)) ns ->
       nonce <= c -> h ∉ tracked s' a).
Proof.
  intros (c & s1 & ns & s2 & Hc & Hr & -> & ->)%get_nonce_inv.
  exists c, s1, ns, s2. repeat split; try done.
  - intros h. rewrite tracked_pruned.
    intros [Hin Hnot]%elem_of_difference.
    destruct (zip_total (order (tracked s a)) ns h) as [nonce Hz].
    + by eapply resolve_nonces_length.
    + by apply order_elem.
    + exists nonce. split; [done|].
      destruct (decide (c < nonce)) as [|Hle]; [done|].
      exfalso. apply Hnot, elem_of_list_to_set.
      eapply confirmed_elem; [done|lia].
  - intros h nonce Hz Hle. rewrite tracked_pruned.
    intros [_ Hnot]%elem_of_difference.
    apply Hnot, elem_of_list_to_set. by eapply confirmed_elem.
Qed.

End NonceTheorems.

Section NonceClaims.

Context {setup : Setup}.

Lemma order_NoDup (X : gset string) : NoDup (order X).
Proof. rewrite (set_iter_perm order X). apply NoDup_elements. Qed.

Lemma confirmed_inv c hs ns h :
  h ∈ confirmed c hs ns -> exists n, (h, n) ∈ zip hs ns /\ n <= c.
Proof.
  revert ns. induction hs as [|h0 hs IH]; intros [|n0 ns]; simpl;
    try (by intros ?%elem_of_nil).
  destruct (Z.leb_spec n0 c) as [Hle|Hgt].
  - intros [->|Hin]%elem_of_cons.
    + exists n0. split; [by left|done].
    + destruct (IH ns Hin) as (n & Hn & Hc). exists n. split; [by right|done].
  - intros Hin. destruct (IH ns Hin) as (n & Hn & Hc). exists n. split; [by right|done].
Qed.

Lemma zip_functional (hs : list string) (ns : list Z) h n m :
  NoDup hs -> (h, n) ∈ zip hs ns -> (h, m) ∈ zip hs ns -> n = m.
Proof.
  revert ns. induction hs as [|h0 hs IH]; intros [|n0 ns] Hnd; simpl;
    try (by intros ?%elem_of_nil).
  apply NoDup_cons in Hnd as [Hh0 Hnd].
  intros [[= -> ->]|Hn]%elem_of_cons [[= ->]|Hm]%elem_of_cons.
  - done.
  - exfalso. apply Hh0. by apply elem_of_zip_l in Hm.
  - exfalso. apply Hh0. subst. by apply elem_of_zip_l in Hn.
  - by eapply IH.
Qed.

Lemma zip_total_r (hs : list string) (ns : list Z) n :
  length ns = length hs -> n ∈ ns -> exists h, (h, n) ∈ zip hs ns.
Proof.
  revert ns. induction hs as [|h0 hs IH]; intros [|n0 ns] Hlen Hin; simpl in *;
    try discriminate; try (by apply elem_of_nil in Hin).
  apply elem_of_cons in Hin as [->|Hin].
  - exists h0. by left.
  - destruct (IH ns) as [h Hh]; [congruence|done|]. exists h. by right.
Qed.

(** C1. With chain nonce [c] and the tracked hashes resolving to the
    nonces [ns], [get_nonce] returns [max(0, c, *ns)], which is the
    maximum over the nonces above [c] as well and is at least [c];
    whenever [get_nonce] returns, its result is at least what
    [get_chain_nonce] reported; and with chain nonce 5 and tracked nonces
    6 and 8 it returns 8. *)
Theorem C1_get_nonce_is_max (a : string) (s : interceptor) :
  (forall c s1 ns s2,
     get_chain_nonce this (JStr a) s = (Ok c, s1) ->
     resolve_nonces this (order (tracked s a)) s1 = (Ok ns, s2) ->
     (get_nonce this (JStr a) s).1 = Ok (py_max 0 c ns) /\
     py_max 0 c ns = py_max 0 c (filter (fun n => c < n) ns) /\
     c <= py_max 0 c ns) /\
  (forall n s',
     get_nonce this (JStr a) s = (Ok n, s') ->
     exists c s1, get_chain_nonce this (JStr a) s = (Ok c, s1) /\ c <= n) /\
  (forall s1 ns s2,
     get_chain_nonce this (JStr a) s = (Ok 5, s1) ->
     resolve_nonces this (order (tracked s a)) s1 = (Ok ns, s2) ->
     ns ≡ₚ [6; 8] ->
     (get_nonce this (JStr a) s).1 = Ok 8).
Proof.
  pose proof (bound_plain_count 2) as Hcount.
  pose proof (bound_plain_by_hash 2) as Hhash.
  split; [|split].
  - intros c s1 ns s2 Hc Hr.
    rewrite (get_nonce_ok this Hcount Hhash a s c s1 ns s2 Hc Hr).
    split; [done|]. split; [by rewrite py_max_filter|apply py_max_lower].
  - intros n s'. by apply get_nonce_at_least_chain.
  - intros s1 ns s2 Hc Hr Hp.
    rewrite (get_nonce_ok this Hcount Hhash a s 5 s1 ns s2 Hc Hr). simpl.
    by rewrite (py_max_perm 0 5 ns [6; 8] Hp).
Qed.

(** C2, as the code has it.  When some tracked transaction is still
    unconfirmed, the nonce [get_nonce] returns is the nonce of a
    transaction that stays tracked as unconfirmed: it is equal to the
    largest outstanding nonce, not greater than every one of them. *)
Theorem C2_get_nonce_repeats_outstanding_nonce (a : string) (s : interceptor)
    (c : Z) (s1 : interceptor) (ns : list Z) (s2 : interceptor) (n : Z) :
  get_chain_nonce this (JStr a) s = (Ok c, s1) ->
  resolve_nonces this (order (tracked s a)) s1 = (Ok ns, s2) ->
  0 <= c -> n ∈ ns -> c < n ->
  exists h nonce,
    (get_nonce this (JStr a) s).1 = Ok nonce /\
    (h, nonce) ∈ zip (order (tracked s a)) ns /\
    h ∈ tracked (get_nonce this (JStr a) s).2 a /\
    ~ (forall m, m ∈ ns -> c < m -> m < nonce).
Proof.
  intros Hc Hr H0 Hn Hlt.
  pose proof (bound_plain_count 2) as Hcount.
  pose proof (bound_plain_by_hash 2) as Hhash.
  rewrite (get_nonce_ok this Hcount Hhash a s c s1 ns s2 Hc Hr). simpl.
  assert (Hin : py_max 0 c ns ∈ ns).
  { unfold py_max. destruct (fold_max_cases ns (Z.max 0 c)) as [E|E]; [|done].
    pose proof (fold_max_elem ns (Z.max 0 c) n Hn). lia. }
  assert (Hgt : c < py_max 0 c ns).
  { pose proof (py_max_upper 0 c n ns Hn). lia. }
  pose proof (resolve_nonces_length this _ _ _ _ Hr) as Hlen.
  destruct (zip_total_r _ _ _ Hlen Hin) as [h Hh].
  exists h, (py_max 0 c ns). split; [done|]. split; [done|]. split.
  - rewrite tracked_pruned. apply elem_of_difference. split.
    + apply order_elem. by apply elem_of_zip_l in Hh.
    + intros (m & Hm & Hle)%elem_of_list_to_set%confirmed_inv.
      pose proof (zip_functional _ _ _ _ _ (order_NoDup _) Hh Hm). lia.
  - intros Hall. specialize (Hall _ Hin Hgt). lia.
Qed.

(** What a lookup that returned has been told by the node. *)
Lemma lookup_nonce_answer (self : bound_method) h s n s1 :
  plain self "eth_getTransactionByHash" ->
  lookup_nonce self h s = (Ok n, s1) ->
  exists txn field,
    wrapped_request_blocking "eth_getTransactionByHash" [JStr h] (inner s) = (Ok txn, inner s1) /\
    py_getitem txn "nonce" = Ok field /\
    to_decimal field = Ok n /\
    calls s1 = (calls s ++ [by_hash h])%list.
Proof.
  intros Hself. unfold lookup_nonce, mbind, M_bind, lift_res.
  rewrite Hself. unfold wrapper_request_blocking.
  destruct (wrapped_request_blocking _ _ (inner s)) as [[txn|e] w]; [|done].
  destruct (py_getitem txn "nonce") as [field|e] eqn:Hf; [|done].
  destruct (to_decimal field) as [m|e] eqn:Hd; [|done].
  intros [= <- <-]. by exists txn, field.
Qed.

(** The lookups of a pass that went through, against the answers of the
    node: each hash was asked for once, in order, and the nonce it resolved
    to is the [nonce] field of the answer. *)
Lemma resolve_nonces_answers (self : bound_method) hs :
  plain self "eth_getTransactionByHash" ->
  forall s ns s2,
    resolve_nonces self hs s = (Ok ns, s2) ->
    calls s2 = (calls s ++ map by_hash hs)%list /\
    forall before h after,
      hs = (before ++ h :: after)%list ->
      exists txn w field nonce,
        wrapped_request_blocking "eth_getTransactionByHash" [JStr h]
          (asked before (inner s)) = (Ok txn, w) /\
        py_getitem txn "nonce" = Ok field /\
        to_decimal field = Ok nonce /\
        (h, nonce) ∈ zip hs ns.
Proof.
  intros Hself. induction hs as [|h0 hs IH]; intros s ns s2.
  - intros Hr. unfold resolve_nonces in Hr. simpl in Hr. unfold mret, M_ret in Hr.
    injection Hr as <- <-. split; [by rewrite app_nil_r|].
    intros [|? ?] h after; discriminate.
  - rewrite resolve_nonces_cons.
    destruct (lookup_nonce self h0 s) as [[n0|e] s1] eqn:Hl; [|done].
    destruct (resolve_nonces self hs s1) as [[ns'|e] s2'] eqn:Hr; [|done].
    intros [= <- <-].
    destruct (lookup_nonce_answer self h0 s n0 s1 Hself Hl) as (txn & field & Hw & Hf & Hd & Hc).
    destruct (IH s1 ns' s2' Hr) as [Hcalls Hrest]. split.
    + rewrite Hcalls, Hc. simpl. by rewrite <- app_assoc.
    + intros [|h1 before] h after Heq; simpl in Heq; injection Heq as -> ->.
      * exists txn, (inner s1), field, n0. simpl. repeat split; try done. by left.
      * destruct (Hrest before h after eq_refl) as (txn' & w & field' & nonce & Hw' & Hf' & Hd' & Hz).
        exists txn', w, field', nonce. simpl. rewrite Hw. simpl.
        repeat split; try done. by right.
Qed.

(** C5. When [get_nonce] returns, a hash that was tracked under the
    address is left there exactly when the node, asked for it by
    [eth_getTransactionByHash] during the call, answered with a [nonce]
    field above the chain nonce of that call.  Every tracked hash is asked
    for once, in the order of the pass, and no hash is left that was not
    tracked before: no hash is left whose reported nonce is at or below
    the chain nonce. *)
Theorem C5_get_nonce_prunes_confirmed (a : string) (s : interceptor)
    (n : Z) (s' : interceptor) :
  get_nonce this (JStr a) s = (Ok n, s') ->
  exists c s1,
    get_chain_nonce this (JStr a) s = (Ok c, s1) /\
    calls s' = (calls s1 ++ map by_hash (order (tracked s a)))%list /\
    tracked s' a ⊆ tracked s a /\
    (forall before h after,
       order (tracked s a) = (before ++ h :: after)%list ->
       exists txn w field nonce,
         wrapped_request_blocking "eth_getTransactionByHash" [JStr h]
           (asked before (inner s1)) = (Ok txn, w) /\
         py_getitem txn "nonce" = Ok field /\
         to_decimal field = Ok nonce /\
         (h ∈ tracked s' a <-> c < nonce)) /\
    (forall h, h ∈ tracked s' a ->
       exists before after txn w field nonce,
         order (tracked s a) = (before ++ h :: after)%list /\
         wrapped_request_blocking "eth_getTransactionByHash" [JStr h]
           (asked before (inner s1)) = (Ok txn, w) /\
         py_getitem txn "nonce" = Ok field /\
         to_decimal field = Ok nonce /\
         c < nonce).
Proof.
  intros Hg.
  destruct (get_nonce_inv this (bound_plain_count 2) (bound_plain_by_hash 2) a s n s' Hg)
    as (c & s1 & ns & s2 & Hc & Hr & _ & ->).
  destruct (resolve_nonces_answers this _ (bound_plain_by_hash 2) s1 ns s2 Hr)
    as [Hcalls Hanswers].
  assert (Hsplit : forall before h after,
            order (tracked s a) = (before ++ h :: after)%list ->
            exists txn w field nonce,
              wrapped_request_blocking "eth_getTransactionByHash" [JStr h]
                (asked before (inner s1)) = (Ok txn, w) /\
              py_getitem txn "nonce" = Ok field /\
              to_decimal field = Ok nonce /\
              (h ∈ tracked (with_known (pruned a c ns s) s2) a <-> c < nonce)).
  { intros before h after Heq.
    destruct (Hanswers before h after Heq) as (txn & w & field & nonce & Hw & Hf & Hd & Hz).
    exists txn, w, field, nonce. repeat split; try done.
    - rewrite tracked_pruned. intros [_ Hnot]%elem_of_difference.
      destruct (decide (c < nonce)) as [|Hle]; [done|]. exfalso.
      apply Hnot, elem_of_list_to_set. eapply confirmed_elem; [done|lia].
    - intros Hgt. rewrite tracked_pruned. apply elem_of_difference. split.
      + apply order_elem. rewrite Heq. apply elem_of_app. right. by left.
      + intros (m & Hm & Hle)%elem_of_list_to_set%confirmed_inv.
        pose proof (zip_functional _ _ _ _ _ (order_NoDup _) Hz Hm). lia. }
  exists c, s1. split; [done|]. split; [done|]. split; [|split; [done|]].
  - rewrite tracked_pruned. by intros h [Hin _]%elem_of_difference.
  - intros h Hin. pose proof Hin as Hin'. rewrite tracked_pruned in Hin'.
    apply elem_of_difference in Hin' as [Hin' _].
    apply order_elem, list_elem_of_split in Hin' as (before & after & Heq).
    destruct (Hsplit before h after Heq) as (txn & w & field & nonce & Hw & Hf & Hd & Hiff).
    exists before, after, txn, w, field, nonce. repeat split; try done. by apply Hiff.
Qed.

End NonceClaims.

Section Unfolding.

Context {setup : Setup}.

Lemma same_bind {A B} (m m' : M interceptor A) (k k' : A -> M interceptor B) :
  same m m' -> (forall a, same (k a) (k' a)) -> same (m ≫= k) (m' ≫= k').
Proof.
  intros Hm Hk s. unfold mbind, M_bind. rewrite Hm.
  destruct (m' s) as [[a|e] s1]; [apply Hk|done].
Qed.

Lemma same_refl {A} (m : M interceptor A) : same m m.
Proof. done. Qed.

Variable self : bound_method.
Hypothesis self_queries : forall method, method ∈ queries -> plain self method.

Lemma self_query method params : method ∈ queries -> same (self method params) (direct method params).
Proof. intros Hm s. by apply self_queries. Qed.

Lemma lookup_nonce_direct h : same (lookup_nonce self h) (lookup_nonce direct h).
Proof.
  unfold lookup_nonce. apply same_bind; [|intros ?; apply same_refl].
  apply self_query. compute_done.
Qed.

Lemma cleanup_loop_direct addr c hs :
  same (cleanup_loop self addr c hs) (cleanup_loop direct addr c hs).
Proof.
  induction hs as [|h hs IH]; [done|]. simpl.
  apply same_bind; [apply lookup_nonce_direct|intros n].
  destruct (n <=? c).
  - apply same_bind; [apply same_refl|intros _; apply IH].
  - apply same_bind; [apply IH|intros ?; apply same_refl].
Qed.

Lemma get_chain_nonce_direct addr :
  same (get_chain_nonce self addr) (get_chain_nonce direct addr).
Proof.
  unfold get_chain_nonce. destruct cls; [|apply same_refl].
  apply same_bind; [|intros ?; apply same_refl].
  apply self_query. compute_done.
Qed.

Lemma get_nonce_direct addr : same (get_nonce self addr) (get_nonce direct addr).
Proof.
  unfold get_nonce. apply same_bind; [apply get_chain_nonce_direct|intros c].
  apply same_bind; [|intros ?; apply same_refl].
  unfold _get_nonces_and_cleanup.
  apply same_bind; [apply same_refl|intros [a X]]. apply cleanup_loop_direct.
Qed.

Lemma construct_full_transaction_direct base :
  same (construct_full_transaction self base) (construct_full_transaction direct base).
Proof.
  unfold construct_full_transaction.
  apply same_bind; [apply same_refl|intros sender].
  apply same_bind; [apply same_refl|intros full].
  apply same_bind; [apply get_nonce_direct|intros nonce].
  apply same_bind; [|intros ?; apply same_refl].
  apply self_query. compute_done.
Qed.

(** The part of [request_blocking] after the interception test. *)
Lemma mixin_forward_direct method params :
  method <> "eth_sendTransaction" ->
  same (request_blocking_mixin self method params)
       (request_blocking_mixin direct method params).
Proof.
  intros Hm. unfold request_blocking_mixin.
  destruct (String.eqb_spec method "eth_sendTransaction") as [|_]; [done|].
  apply same_bind; [apply same_refl|intros result].
  destruct (bool_decide (method ∈ TXN_SENDING_METHODS)); [|apply same_refl].
  apply same_bind; [|intros ?; apply same_refl].
  apply self_query. compute_done.
Qed.

End Unfolding.

Section Depth.

Context {setup : Setup}.

Lemma bound_queries d method : method ∈ queries -> plain (bound_request_blocking (S d)) method.
Proof.
  intros Hm. apply bound_plain. intros Hs. revert Hm.
  unfold queries, TXN_SENDING_METHODS in *.
  repeat (apply elem_of_cons in Hs as [->|Hs]; [compute_done|]).
  by apply elem_of_nil in Hs.
Qed.

(** One level of nesting serves the requests that are not intercepted... *)
Lemma bound_forward d method params :
  method <> "eth_sendTransaction" ->
  same (bound_request_blocking (S (S d)) method params)
       (request_blocking_mixin direct method params).
Proof.
  intros Hm. change (bound_request_blocking (S (S d)))
    with (request_blocking_mixin (bound_request_blocking (S d))).
  apply mixin_forward_direct; [|done]. intros m. apply bound_queries.
Qed.

(** ... and two more serve an intercepted [eth_sendTransaction]. *)
Lemma bound_send d params :
  same (bound_request_blocking (S (S (S d))) "eth_sendTransaction" params)
       (base_transaction ← lift_res (py_first params);
        full_transaction ← construct_full_transaction direct base_transaction;
        raw_transaction_bytes ← sign_and_serialize_transaction full_transaction;
        request_blocking_mixin direct "eth_sendRawTransaction"
          [JStr (encode_hex raw_transaction_bytes)]).
Proof.
  change (bound_request_blocking (S (S (S d))))
    with (request_blocking_mixin (bound_request_blocking (S (S d)))).
  unfold request_blocking_mixin at 1. simpl String.eqb. cbv iota.
  apply same_bind; [apply same_refl|intros base].
  apply same_bind.
  { apply construct_full_transaction_direct. intros m. apply bound_queries. }
  intros full. apply same_bind; [apply same_refl|intros raw].
  by apply bound_forward.
Qed.

(** Deeper nesting than [this] allows is never used: any larger bound
    gives the same outcome and the same effect. *)
Lemma bound_request_blocking_stable d method params :
  (3 <= d)%nat -> same (bound_request_blocking d method params) (this method params).
Proof.
  intros Hd. destruct d as [|[|[|d]]]; try lia. unfold this.
  destruct (decide (method = "eth_sendTransaction")) as [->|Hm].
  - intros s. by rewrite !bound_send.
  - intros s. by rewrite (bound_forward (S d)), (bound_forward 1).
Qed.

End Depth.

Create HintDb forwards discriminated.

Section Forwarding.

Context {setup : Setup}.

Variable P : string -> Prop.

Lemma forwards_only_silent {A} (m : M interceptor A) :
  (forall s, calls (m s).2 = calls s) -> forwards_only P m.
Proof. intros Hm s. exists []. by rewrite Hm, app_nil_r. Qed.

Lemma forwards_only_ret {A} (a : A) : forwards_only P (mret a).
Proof. by apply forwards_only_silent. Qed.

Lemma forwards_only_lift {A} (r : res A) : forwards_only P (lift_res r).
Proof. by apply forwards_only_silent. Qed.

Lemma forwards_only_raise {A} (e : exn) : forwards_only P (raise (A := A) e).
Proof. by apply forwards_only_silent. Qed.

Lemma forwards_only_bind {A B} (m : M interceptor A) (k : A -> M interceptor B) :
  forwards_only P m -> (forall a, forwards_only P (k a)) -> forwards_only P (m ≫= k).
Proof.
  intros Hm Hk s. unfold mbind, M_bind.
  destruct (Hm s) as (new1 & E1 & F1).
  destruct (m s) as [[a|e] s1]; simpl in *; [|by exists new1].
  destruct (Hk a s1) as (new2 & E2 & F2).
  exists (new1 ++ new2)%list. split.
  - by rewrite E2, E1, app_assoc.
  - by apply Forall_app.
Qed.

Lemma forwards_only_same {A} (m m' : M interceptor A) :
  same m m' -> forwards_only P m' -> forwards_only P m.
Proof. intros Hs Hm s. by rewrite Hs. Qed.

Lemma forwards_only_direct method params :
  P method -> forwards_only P (direct method params).
Proof.
  intros Hp s. exists [(method, params)]. unfold direct, wrapper_request_blocking.
  destruct (wrapped_request_blocking method params (inner s)). simpl.
  split; [done|]. by apply Forall_singleton.
Qed.

Lemma forwards_only_wrapper method params :
  P method -> forwards_only P (wrapper_request_blocking method params).
Proof. apply forwards_only_direct. Qed.

Lemma forwards_only_signer method params :
  forwards_only P (signature_manager_request_blocking method params).
Proof.
  apply forwards_only_silent. intros s. unfold signature_manager_request_blocking.
  by destruct (signer_request_blocking method params (inner s)).
Qed.

Lemma forwards_only_known_getitem addr : forwards_only P (known_getitem addr).
Proof.
  apply forwards_only_silent. intros s.
  unfold known_getitem, defaultdict_getitem, mbind, M_bind, lift_res.
  destruct (as_key addr); [|done]. by destruct (known_transactions s !! a).
Qed.

Lemma forwards_only_modify f : forwards_only P (modify (with_known f)).
Proof. by apply forwards_only_silent. Qed.

Lemma forwards_only_pair {A B C} (k : A -> B -> M interceptor C) (x : A * B) :
  (forall a b, forwards_only P (k a b)) -> forwards_only P (let '(a, b) := x in k a b).
Proof. intros Hk. by destruct x. Qed.

Lemma forwards_only_if {A} (b : bool) (m m' : M interceptor A) :
  forwards_only P m -> forwards_only P m' -> forwards_only P (if b then m else m').
Proof. by destruct b. Qed.

#[local] Hint Resolve forwards_only_ret forwards_only_lift forwards_only_raise forwards_only_bind
  forwards_only_direct forwards_only_wrapper forwards_only_signer
  forwards_only_known_getitem forwards_only_modify forwards_only_pair forwards_only_if
  : forwards.

Lemma forwards_only_known_discard addr h : forwards_only P (known_discard addr h).
Proof. unfold known_discard. auto with forwards. Qed.

Lemma forwards_only_known_add addr v : forwards_only P (known_add addr v).
Proof. unfold known_add. auto 6 with forwards. Qed.

Hypothesis P_queries : forall method, method ∈ queries -> P method.

Lemma P_count : P "eth_getTransactionCount".
Proof. apply P_queries. compute_done. Qed.

Lemma P_by_hash : P "eth_getTransactionByHash".
Proof. apply P_queries. compute_done. Qed.

Lemma P_gas_price : P "eth_gasPrice".
Proof. apply P_queries. compute_done. Qed.

#[local] Hint Resolve P_count P_by_hash P_gas_price forwards_only_known_discard
  forwards_only_known_add : forwards.

Lemma forwards_only_lookup_nonce h : forwards_only P (lookup_nonce direct h).
Proof. unfold lookup_nonce. auto 6 with forwards. Qed.

#[local] Hint Resolve forwards_only_lookup_nonce : forwards.

Lemma forwards_only_cleanup_loop addr c hs : forwards_only P (cleanup_loop direct addr c hs).
Proof. induction hs as [|h hs IH]; simpl; auto 8 with forwards. Qed.

#[local] Hint Resolve forwards_only_cleanup_loop : forwards.

Lemma forwards_only_get_chain_nonce addr : forwards_only P (get_chain_nonce direct addr).
Proof. unfold get_chain_nonce. destruct cls; auto 10 with forwards. Qed.

Lemma forwards_only_get_nonce addr : forwards_only P (get_nonce direct addr).
Proof.
  pose proof forwards_only_get_chain_nonce.
  unfold get_nonce, _get_nonces_and_cleanup. auto 8 with forwards.
Qed.

Lemma forwards_only_construct base :
  forwards_only P (construct_full_transaction direct base).
Proof.
  pose proof forwards_only_get_nonce.
  unfold construct_full_transaction. auto 10 with forwards.
Qed.

Lemma forwards_only_sign transaction :
  forwards_only P (sign_and_serialize_transaction transaction).
Proof.
  unfold sign_and_serialize_transaction, get_transaction_signature.
  destruct cls; auto 12 with forwards.
Qed.

Lemma forwards_only_forward method params :
  method <> "eth_sendTransaction" -> P method ->
  forwards_only P (request_blocking_mixin direct method params).
Proof.
  intros Hm Hp. unfold request_blocking_mixin.
  destruct (String.eqb_spec method "eth_sendTransaction") as [|_]; [done|].
  auto 10 with forwards.
Qed.

End Forwarding.

Section SendClaims.

Context {setup : Setup}.

Lemma this_queries method : method ∈ queries -> plain this method.
Proof. apply (bound_queries 2). Qed.

Lemma this_count : plain this "eth_getTransactionCount".
Proof. apply this_queries. compute_done. Qed.

Lemma this_by_hash : plain this "eth_getTransactionByHash".
Proof. apply this_queries. compute_done. Qed.

Lemma this_gas_price : plain this "eth_gasPrice".
Proof. apply this_queries. compute_done. Qed.

Lemma this_direct method params s :
  method ∈ queries -> this method params s = direct method params s.
Proof. intros Hm. by apply this_queries. Qed.

Lemma this_forward method params :
  method <> "eth_sendTransaction" ->
  same (this method params) (request_blocking_mixin direct method params).
Proof. apply (bound_forward 1). Qed.

Lemma known_add_tracked a h s :
  known_add (JStr a) (JStr h) s =
    (Ok tt, with_known (<[a := tracked s a ∪ {[h]}]>) s).
Proof.
  unfold known_add. rewrite (bind_ok _ _ _ _ _ (known_getitem_touch a s)).
  unfold mbind, M_bind, lift_res, modify. simpl. f_equal.
  unfold touch, tracked. destruct (known_transactions s !! a); [done|].
  rewrite with_known_compose. unfold with_known. f_equal. apply insert_insert_eq.
Qed.

Lemma setdefault_lookup key value (d : gmap string json) j :
  setdefault key value d !! j =
    match d !! j with
    | Some x => Some x
    | None => if decide (key = j) then Some value else None
    end.
Proof.
  unfold setdefault. destruct (d !! key) eqn:E.
  - destruct (d !! j) eqn:Ej; [done|]. case_decide; [congruence|done].
  - rewrite lookup_insert. case_decide as Hk.
    + subst. by rewrite E.
    + by destruct (d !! j).
Qed.

(** C8. Given a base transaction with a [from] field, and given that the
    nonce and the gas price are obtained, [construct_full_transaction]
    returns a dictionary that agrees with the base on every field of the
    base, holds the documented default for each of the six other fields
    the base lacks, has all seven fields, and has no field beyond those of
    the base and the six. *)
Theorem C8_construct_full_transaction_defaults (base : gmap string json)
    (sender : json) (s : interceptor) (nonce : Z) (s1 : interceptor)
    (price : json) (s2 : interceptor) :
  base !! "from" = Some sender ->
  get_nonce this sender s = (Ok nonce, s1) ->
  this "eth_gasPrice" [] s1 = (Ok price, s2) ->
  exists full,
    construct_full_transaction this (JObj base) s = (Ok full, s2) /\
    (forall k v, base !! k = Some v -> full !! k = Some v) /\
    (base !! "nonce" = None -> full !! "nonce" = Some (JNum nonce)) /\
    (base !! "gasPrice" = None -> full !! "gasPrice" = Some price) /\
    (base !! "gas" = None -> full !! "gas" = Some (JStr "0x15f90")) /\
    (base !! "value" = None -> full !! "value" = Some (JStr "0x0")) /\
    (base !! "to" = None -> full !! "to" = Some (JStr "")) /\
    (base !! "data" = None -> full !! "data" = Some (JStr "")) /\
    (forall k, k ∈ ["from"; "to"; "value"; "data"; "gas"; "gasPrice"; "nonce"] ->
               is_Some (full !! k)) /\
    (forall k, is_Some (full !! k) ->
               is_Some (base !! k) \/
               k ∈ ["to"; "value"; "data"; "gas"; "gasPrice"; "nonce"]).
Proof.
  intros Hfrom Hnonce Hprice. eexists. split.
  { unfold construct_full_transaction. simpl py_getitem. rewrite Hfrom. simpl.
    run_lift.
    run_lift.
    rewrite (bind_ok _ _ _ _ _ Hnonce), (bind_ok _ _ _ _ _ Hprice). reflexivity. }
  split; [|split; [|split; [|split; [|split; [|split; [|split; [|split]]]]]]].
  - intros k v Hk. by rewrite !setdefault_lookup, Hk.
  - intros Hn. by rewrite !setdefault_lookup, Hn.
  - intros Hn. by rewrite !setdefault_lookup, Hn.
  - intros Hn. by rewrite !setdefault_lookup, Hn.
  - intros Hn. by rewrite !setdefault_lookup, Hn.
  - intros Hn. by rewrite !setdefault_lookup, Hn.
  - intros Hn. by rewrite !setdefault_lookup, Hn.
  - intros k Hk. rewrite !setdefault_lookup.
    repeat (apply elem_of_cons in Hk as [->|Hk];
            [first [ rewrite Hfrom; simpl; by eexists
                   | match goal with
                     | |- context [base !! ?j] => destruct (base !! j)
                     end; simpl; by eexists ]|]).
    by apply elem_of_nil in Hk.
  - intros k. rewrite !setdefault_lookup. destruct (base !! k); [eauto|].
    intros Hs. right.
    repeat (case_decide; [subst; compute_done|]).
    by destruct Hs.
Qed.

Lemma forward_tracked method params s h s1 txn s2 sender :
  method ∈ TXN_SENDING_METHODS -> method <> "eth_sendTransaction" ->
  wrapper_request_blocking method params s = (Ok (JStr h), s1) ->
  direct "eth_getTransactionByHash" [JStr h] s1 = (Ok txn, s2) ->
  py_getitem txn "from" = Ok (JStr sender) ->
  request_blocking_mixin direct method params s =
    (Ok (JStr h), with_known (<[sender := tracked s2 sender ∪ {[h]}]>) s2).
Proof.
  intros Hin Hne Hw Hl Hf. unfold request_blocking_mixin.
  destruct (String.eqb_spec method "eth_sendTransaction") as [|_]; [done|].
  rewrite (bind_ok _ _ _ _ _ Hw), bool_decide_eq_true_2 by done.
  rewrite (bind_ok _ _ _ _ _ Hl), Hf.
  run_lift.
  by rewrite (bind_ok _ _ _ _ _ (known_add_tracked sender h s2)).
Qed.

Lemma forward_raises self method params s e s' :
  method <> "eth_sendTransaction" ->
  wrapper_request_blocking method params s = (Err e, s') ->
  request_blocking_mixin self method params s = (Err e, s').
Proof.
  intros Hne Hw. unfold request_blocking_mixin.
  destruct (String.eqb_spec method "eth_sendTransaction") as [|_]; [done|].
  by rewrite (bind_err _ _ _ _ _ Hw).
Qed.

Lemma wrapper_calls method params s :
  calls (wrapper_request_blocking method params s).2 = (calls s ++ [(method, params)])%list.
Proof.
  unfold wrapper_request_blocking.
  by destruct (wrapped_request_blocking method params (inner s)).
Qed.

(** C6. An [eth_sendTransaction] request never reaches the wrapped manager
    under that name; once the full transaction is built and signed the
    call is the [eth_sendRawTransaction] call on the hex-encoded bytes,
    result and effect alike; a request under [eth_sendRawTransaction],
    [personal_signAndSendTransaction] or [personal_sendTransaction] is
    forwarded, its result looked up by hash and added to the set tracked
    under the sender that the lookup reports; and so is the hash that the
    broadcast of an intercepted [eth_sendTransaction] returns, which is the
    result of the call. *)
Theorem C6_send_transaction_goes_out_raw (s : interceptor) :
  (forall params, exists new,
     calls (this "eth_sendTransaction" params s).2 = (calls s ++ new)%list /\
     Forall (fun c => c.1 <> "eth_sendTransaction") new) /\
  (forall params base full s1 raw s2,
     py_first params = Ok base ->
     construct_full_transaction this base s = (Ok full, s1) ->
     sign_and_serialize_transaction full s1 = (Ok raw, s2) ->
     this "eth_sendTransaction" params s =
       this "eth_sendRawTransaction" [JStr (encode_hex raw)] s2) /\
  (forall method params h s1 txn s2 sender,
     method ∈ ["eth_sendRawTransaction"; "personal_signAndSendTransaction";
               "personal_sendTransaction"] ->
     wrapper_request_blocking method params s = (Ok (JStr h), s1) ->
     this "eth_getTransactionByHash" [JStr h] s1 = (Ok txn, s2) ->
     py_getitem txn "from" = Ok (JStr sender) ->
     this method params s =
       (Ok (JStr h), with_known (<[sender := tracked s2 sender ∪ {[h]}]>) s2) /\
     calls s2 = (calls s ++ [(method, params); by_hash h])%list) /\
  (forall params base full s1 raw s2 h s3 txn s4 sender,
     py_first params = Ok base ->
     construct_full_transaction this base s = (Ok full, s1) ->
     sign_and_serialize_transaction full s1 = (Ok raw, s2) ->
     wrapper_request_blocking "eth_sendRawTransaction" [JStr (encode_hex raw)] s2
       = (Ok (JStr h), s3) ->
     this "eth_getTransactionByHash" [JStr h] s3 = (Ok txn, s4) ->
     py_getitem txn "from" = Ok (JStr sender) ->
     this "eth_sendTransaction" params s =
       (Ok (JStr h), with_known (<[sender := tracked s4 sender ∪ {[h]}]>) s4) /\
     calls s4 =
       (calls s2 ++ [("eth_sendRawTransaction", [JStr (encode_hex raw)]); by_hash h])%list).
Proof.
  assert (Hsend : forall params base full s1 raw s2,
            py_first params = Ok base ->
            construct_full_transaction this base s = (Ok full, s1) ->
            sign_and_serialize_transaction full s1 = (Ok raw, s2) ->
            this "eth_sendTransaction" params s =
              this "eth_sendRawTransaction" [JStr (encode_hex raw)] s2).
  { intros params base full s1 raw s2 Hb Hc Hs.
    change (this "eth_sendTransaction" params s)
      with (bound_request_blocking 3 "eth_sendTransaction" params s).
    rewrite (bound_send 0 params s), Hb.
    run_lift.
    rewrite (construct_full_transaction_direct this this_queries base s) in Hc.
    rewrite (bind_ok _ _ _ _ _ Hc), (bind_ok _ _ _ _ _ Hs).
    by rewrite this_forward. }
  assert (Htrack : forall s0 method params h s1 txn s2 sender,
            method ∈ ["eth_sendRawTransaction"; "personal_signAndSendTransaction";
                      "personal_sendTransaction"] ->
            wrapper_request_blocking method params s0 = (Ok (JStr h), s1) ->
            this "eth_getTransactionByHash" [JStr h] s1 = (Ok txn, s2) ->
            py_getitem txn "from" = Ok (JStr sender) ->
            this method params s0 =
              (Ok (JStr h), with_known (<[sender := tracked s2 sender ∪ {[h]}]>) s2) /\
            calls s2 = (calls s0 ++ [(method, params); by_hash h])%list).
  { intros s0 method params h s1 txn s2 sender Hm Hw Hl Hf.
    assert (Hin : method ∈ TXN_SENDING_METHODS).
    { repeat (apply elem_of_cons in Hm as [->|Hm]; [compute_done|]).
      by apply elem_of_nil in Hm. }
    assert (Hne : method <> "eth_sendTransaction").
    { intros ->. revert Hm. compute_done. }
    rewrite this_direct in Hl by compute_done.
    rewrite (this_forward method params Hne s0). split.
    + by apply (forward_tracked method params s0 h s1 txn s2 sender).
    + pose proof (wrapper_calls method params s0) as C1.
      pose proof (wrapper_calls "eth_getTransactionByHash" [JStr h] s1) as C2.
      unfold direct in Hl. rewrite Hw in C1. rewrite Hl in C2. simpl in *.
      by rewrite C2, C1, <- app_assoc. }
  split; [|split; [done|split]].
  - intros params.
    assert (Hq : forall method, method ∈ queries -> method <> "eth_sendTransaction").
    { intros method Hm ->. revert Hm. compute_done. }
    revert s Hsend. intros s _. revert s.
    change (forwards_only (fun m => m <> "eth_sendTransaction")
                        (this "eth_sendTransaction" params)).
    apply (forwards_only_same _ _ _ (bound_send 0 params)).
    apply forwards_only_bind; [apply forwards_only_lift|intros base].
    apply forwards_only_bind; [by apply forwards_only_construct|intros full].
    apply forwards_only_bind; [apply forwards_only_sign|intros raw].
    by apply forwards_only_forward.
  - apply Htrack.
  - intros params base full s1 raw s2 h s3 txn s4 sender Hb Hc Hs Hw Hl Hf.
    rewrite (Hsend params base full s1 raw s2 Hb Hc Hs).
    apply (Htrack s2 "eth_sendRawTransaction" _ h s3 txn s4 sender); try done.
    compute_done.
Qed.

Lemma get_nonce_address addr s n s' :
  get_nonce this addr s = (Ok n, s') -> exists a, addr = JStr a.
Proof.
  unfold get_nonce. intros (c & s1 & _ & Hrest)%bind_inv_ok.
  apply bind_inv_ok in Hrest as (ys & s1' & Hcl & _).
  unfold _get_nonces_and_cleanup in Hcl.
  apply bind_inv_ok in Hcl as ([a X] & s1'' & Hk & _).
  unfold known_getitem in Hk. apply bind_inv_ok in Hk as (a' & ? & Hk & _).
  unfold lift_res in Hk. destruct addr; try discriminate. by eexists.
Qed.

(** C9, as the code has it.  When the broadcast of the signed transaction
    raises, the call raises the same exception and the table is the one
    [get_nonce] left behind: under the sender, the hashes that were
    tracked minus those found confirmed during the call; under every
    other address, what was there before.  No hash is added anywhere. *)
Theorem C9_failed_broadcast_keeps_pruned_table (s : interceptor)
    (params : list json) (base : json) (full : gmap string json)
    (s1 : interceptor) (raw : string) (s2 : interceptor) (e : exn)
    (s3 : interceptor) :
  py_first params = Ok base ->
  construct_full_transaction this base s = (Ok full, s1) ->
  sign_and_serialize_transaction full s1 = (Ok raw, s2) ->
  wrapper_request_blocking "eth_sendRawTransaction" [JStr (encode_hex raw)] s2 = (Err e, s3) ->
  this "eth_sendTransaction" params s = (Err e, s3) /\
  exists a c sc ns sr,
    py_getitem base "from" = Ok (JStr a) /\
    get_chain_nonce this (JStr a) s = (Ok c, sc) /\
    resolve_nonces this (order (tracked s a)) sc = (Ok ns, sr) /\
    known_transactions s3 = pruned a c ns s (known_transactions s) /\
    (forall b, tracked s3 b ⊆ tracked s b) /\
    (forall b, b <> a -> known_transactions s3 !! b = known_transactions s !! b) /\
    (forall h, h ∈ tracked s3 a <->
               h ∈ tracked s a /\
               ~ exists nonce, (h, nonce) ∈ zip (order (tracked s a)) ns /\ nonce <= c).
Proof.
  intros Hb Hc Hs Hw.
  assert (Hcall : this "eth_sendTransaction" params s = (Err e, s3)).
  { change (this "eth_sendTransaction" params s)
      with (bound_request_blocking 3 "eth_sendTransaction" params s).
    rewrite (bound_send 0 params s), Hb.
    run_lift.
    pose proof Hc as Hd.
    rewrite (construct_full_transaction_direct this this_queries base s) in Hd.
    rewrite (bind_ok _ _ _ _ _ Hd), (bind_ok _ _ _ _ _ Hs).
    by apply forward_raises. }
  split; [done|].
  pose proof Hc as Hc'. unfold construct_full_transaction in Hc'.
  apply bind_inv_ok in Hc' as (sender & s0 & Hfrom & Hrest).
  apply bind_inv_ok in Hrest as (dict & s0' & Hdict & Hrest).
  unfold lift_res in Hfrom, Hdict. injection Hfrom as Hfrom <-. injection Hdict as Hdict <-.
  apply bind_inv_ok in Hrest as (nonce & sn & Hn & Hrest).
  apply bind_inv_ok in Hrest as (price & sp & Hp & Hret).
  unfold mret, M_ret in Hret. injection Hret as _ <-.
  destruct (get_nonce_address _ _ _ _ Hn) as [a ->].
  apply (get_nonce_inv this this_count this_by_hash) in Hn
    as (c & sc & ns & sr & Hchain & Hres & _ & ->).
  assert (Hk : known_transactions s3 = pruned a c ns s (known_transactions sr)).
  { pose proof (known_blind_preserves _ s2 (known_blind_wrapper "eth_sendRawTransaction"
                  [JStr (encode_hex raw)])) as K3.
    pose proof (known_blind_preserves _ sp (known_blind_sign_and_serialize full)) as K2.
    pose proof (known_blind_preserves _ (with_known (pruned a c ns s) sr)
                  (known_blind_plain this "eth_gasPrice" [] this_gas_price)) as K1.
    rewrite Hw in K3. rewrite Hs in K2. rewrite Hp in K1. simpl in *. congruence. }
  assert (Hsr : known_transactions sr = known_transactions s).
  { pose proof (known_blind_preserves _ sc (known_blind_resolve this (order (tracked s a))
                  this_by_hash)) as K2.
    pose proof (known_blind_preserves _ s (known_blind_get_chain_nonce this (JStr a)
                  this_count)) as K1.
    rewrite Hres in K2. rewrite Hchain in K1. simpl in *. congruence. }
  assert (Hother : forall b, b <> a ->
            known_transactions s3 !! b = known_transactions s !! b).
  { intros b Hne. rewrite Hk, Hsr. unfold pruned. by rewrite lookup_insert_ne. }
  assert (Hat : tracked s3 a =
                tracked s a ∖ list_to_set (confirmed c (order (tracked s a)) ns)).
  { unfold tracked at 1. rewrite Hk. unfold pruned. by rewrite lookup_insert_eq. }
  exists a, c, sc, ns, sr.
  split; [done|]. split; [done|]. split; [done|].
  split; [by rewrite Hk, Hsr|]. split; [|split; [done|]].
  - intros b. destruct (decide (b = a)) as [->|Hne].
    + rewrite Hat. by intros h [Hin _]%elem_of_difference.
    + unfold tracked. by rewrite Hother.
  - intros h. rewrite Hat, elem_of_difference, elem_of_list_to_set. split.
    + intros [Hin Hnot]. split; [done|]. intros (m & Hz & Hle).
      apply Hnot. by eapply confirmed_elem.
    + intros [Hin Hno]. split; [done|].
      intros (m & Hz & Hle)%confirmed_inv. eauto.
Qed.

End SendClaims.

(** ** The theorems at concrete inputs *)

(** The request manager over the scripted transport. *)
Lemma C3_receive_blocking_decodes_again_witness :
  (request_blocking "net_listening" [] one_in_flight).1 = Ok (JBool true) /\
  (receive_blocking "0x0" None (run [Schedule 0%nat] one_in_flight)).1 = Err TypeError.
Proof.
  split; [by vm_compute|].
  apply (C3_receive_blocking_decodes_again (runtime := scripted_runtime) fresh_manager "net_listening" [] None (JBool true)).
  - by vm_compute.
  - discriminate.
Defined.

(** C4 as stated fails: the body [{}] decodes to an object without an
    [error] key, and [request_blocking] raises instead of returning. *)
Lemma C4_object_without_result_raises :
  (@json_loads scripted_runtime body_empty = Ok (JObj ∅)) /\
  ((∅ : gmap string json) !! "error" = None) /\
  ((request_blocking "eth_syncing" [] fresh_manager).1 = Err (KeyError "result")).
Proof. split; [by vm_compute|]. split; [done|by vm_compute]. Qed.

Lemma C4_request_blocking_unwraps_envelope_witness :
  (request_blocking "net_listening" [] fresh_manager).1 = Ok (JBool true) /\
  (request_blocking "eth_syncing" [] fresh_manager).1 = Err (KeyError "result").
Proof.
  split.
  - apply (proj1 (C4_request_blocking_unwraps_envelope (runtime := scripted_runtime) fresh_manager "net_listening" []
                    body_listening 0%nat body_listening {[ "result" := JBool true ]}
                    eq_refl eq_refl eq_refl)).
    split; by vm_compute.
  - apply (proj2 (proj2 (C4_request_blocking_unwraps_envelope (runtime := scripted_runtime) fresh_manager "eth_syncing" []
                    body_empty 0%nat body_empty ∅ eq_refl eq_refl eq_refl)));
      by vm_compute.
Defined.

Lemma C7_receive_blocking_consumes_the_id_witness :
  (@receive_blocking scripted_runtime "0x0" None
     (@receive_blocking scripted_runtime "0x0" None one_in_flight).2).1 =
    Err (not_found "0x0") /\
  @receive_blocking scripted_runtime "0x7" None
     (run [Request_async "net_listening" []] fresh_manager) =
    (Err (not_found "0x7"), run [Request_async "net_listening" []] fresh_manager).
Proof.
  split.
  - apply (proj1 (proj2 (C7_receive_blocking_consumes_the_id
                           (runtime := scripted_runtime) one_in_flight "0x0"))).
  - apply (proj2 (proj2 (proj2 (C7_receive_blocking_consumes_the_id
                                  (runtime := scripted_runtime) fresh_manager "0x7")))
             scripted_provider 0%nat [Request_async "net_listening" []] None).
    compute_done.
Defined.

Lemma C10_failed_receive_loses_the_result_witness :
  (@receive_blocking scripted_runtime "0x0" (Some 0%nat) one_in_flight).1 = Err Timeout /\
  hub (run [Schedule 0%nat] timed_out) !! 0%nat = Some (Finished (Ok (JBool true))) /\
  (receive_blocking "0x0" None (run [Schedule 0%nat] timed_out)).1 =
    Err (not_found "0x0").
Proof.
  destruct (C10_failed_receive_loses_the_result (runtime := scripted_runtime) one_in_flight "0x0" (Some 0%nat)
              0%nat Timeout eq_refl eq_refl) as (_ & Hlater & Htask).
  split; [by vm_compute|]. split.
  - destruct (Htask "net_listening" [] 0%nat eq_refl eq_refl eq_refl) as (_ & _ & Hdone).
    exact Hdone.
  - apply Hlater. compute_done.
Defined.

(** The interceptor over the scripted node. *)

Lemma C1_get_nonce_is_max_witness :
  (get_nonce this (JStr "0xAA") two_outstanding).1 = Ok 8.
Proof.
  eapply (proj2 (proj2 (C1_get_nonce_is_max "0xAA" two_outstanding))
            (get_chain_nonce this (JStr "0xAA") two_outstanding).2 [6; 8]
            (get_nonce this (JStr "0xAA") two_outstanding).2).
  - vm_compute. reflexivity.
  - vm_compute. reflexivity.
  - reflexivity.
Defined.

Lemma C2_get_nonce_repeats_outstanding_nonce_witness :
  exists h nonce,
    (get_nonce this (JStr "0xAA") two_outstanding).1 = Ok nonce /\
    (h, nonce) ∈ zip (@order (scripted BaseSendRawTransactionMixin)
                        (tracked two_outstanding "0xAA")) [6; 8] /\
    h ∈ tracked (get_nonce this (JStr "0xAA") two_outstanding).2 "0xAA" /\
    ~ (forall m, m ∈ [6; 8] -> 5 < m -> m < nonce).
Proof.
  apply (C2_get_nonce_repeats_outstanding_nonce "0xAA" two_outstanding 5
           (get_chain_nonce this (JStr "0xAA") two_outstanding).2 [6; 8]
           (get_nonce this (JStr "0xAA") two_outstanding).2 8).
  - vm_compute. reflexivity.
  - vm_compute. reflexivity.
  - lia.
  - compute_done.
  - lia.
Defined.

Lemma C5_get_nonce_prunes_confirmed_witness :
  (get_nonce this (JStr "0xAA") feed_and_cafe).1 = Ok 7 /\
  ("0xfeed" ∈ tracked feed_and_cafe "0xAA") /\
  ("0xfeed" ∉ tracked (get_nonce this (JStr "0xAA") feed_and_cafe).2 "0xAA") /\
  ("0xcafe" ∈ tracked (get_nonce this (JStr "0xAA") feed_and_cafe).2 "0xAA").
Proof.
  destruct (C5_get_nonce_prunes_confirmed "0xAA" feed_and_cafe 7
              (get_nonce this (JStr "0xAA") feed_and_cafe).2)
    as (c & s1 & Hc & _ & _ & Hsplit & _).
  { vm_compute. reflexivity. }
  vm_compute in Hc. injection Hc as <- <-.
  split; [by vm_compute|]. split; [compute_done|]. split.
  - destruct (Hsplit ["0xcafe"] "0xfeed" []) as (txn & w & field & nonce & Hw & Hf & Hd & Hiff).
    { vm_compute. reflexivity. }
    vm_compute in Hw. injection Hw as <- _.
    vm_compute in Hf. injection Hf as <-.
    vm_compute in Hd. injection Hd as <-.
    intros Hin. apply Hiff in Hin. lia.
  - destruct (Hsplit [] "0xcafe" ["0xfeed"]) as (txn & w & field & nonce & Hw & Hf & Hd & Hiff).
    { vm_compute. reflexivity. }
    vm_compute in Hw. injection Hw as <- _.
    vm_compute in Hf. injection Hf as <-.
    vm_compute in Hd. injection Hd as <-.
    apply Hiff. lia.
Defined.

Lemma C6_send_transaction_goes_out_raw_witness :
  this "eth_sendTransaction" send_from_AA signer_up =
    (Ok (JStr "0xnew"),
     with_known (<["0xAA" := tracked looked_up "0xAA" ∪ {[ "0xnew" ]}]>) looked_up) /\
  calls looked_up =
    (calls built ++ [("eth_sendRawTransaction", [JStr signed_hex]); by_hash "0xnew"])%list /\
  ("0xnew" ∈ tracked (this "eth_sendTransaction" send_from_AA signer_up).2 "0xAA") /\
  ("0xnew" ∈ tracked (this "eth_sendRawTransaction" [JStr "0xf86b"] signer_up).2 "0xAA").
Proof.
  destruct (proj2 (proj2 (proj2 (C6_send_transaction_goes_out_raw signer_up)))
              send_from_AA (JObj {[ "from" := JStr "0xAA" ]})
              (value_of ∅ (construct_full_transaction this
                             (JObj {[ "from" := JStr "0xAA" ]}) signer_up).1)
              built signed_bytes built "0xnew" sent (txn_object "0xAA" "0x9") looked_up "0xAA")
    as [Hcall Hcalls].
  - reflexivity.
  - vm_compute. reflexivity.
  - vm_compute. reflexivity.
  - vm_compute. reflexivity.
  - vm_compute. reflexivity.
  - reflexivity.
  - split; [exact Hcall|]. split; [exact Hcalls|]. split.
    + rewrite Hcall. unfold tracked at 1. simpl. rewrite lookup_insert_eq. simpl.
      apply elem_of_union_r, elem_of_singleton. reflexivity.
    + destruct (proj1 (proj2 (proj2 (C6_send_transaction_goes_out_raw signer_up)))
                  "eth_sendRawTransaction" [JStr "0xf86b"] "0xnew"
                  (wrapper_request_blocking "eth_sendRawTransaction" [JStr "0xf86b"]
                     signer_up).2
                  (txn_object "0xAA" "0x9")
                  (this "eth_getTransactionByHash" [JStr "0xnew"]
                     (wrapper_request_blocking "eth_sendRawTransaction" [JStr "0xf86b"]
                        signer_up).2).2
                  "0xAA")
        as [Hraw _].
      * compute_done.
      * vm_compute. reflexivity.
      * vm_compute. reflexivity.
      * reflexivity.
      * rewrite Hraw. unfold tracked at 1. simpl. rewrite lookup_insert_eq. simpl.
        apply elem_of_union_r, elem_of_singleton. reflexivity.
Defined.

Lemma C8_construct_full_transaction_defaults_witness :
  exists full,
    construct_full_transaction this (JObj {[ "from" := JStr "0xAA" ]}) two_outstanding =
      (Ok full, (construct_full_transaction this (JObj {[ "from" := JStr "0xAA" ]})
                   two_outstanding).2) /\
    full !! "from" = Some (JStr "0xAA") /\
    full !! "nonce" = Some (JNum 8) /\
    full !! "gasPrice" = Some (JStr "0x4a817c800") /\
    full !! "gas" = Some (JStr "0x15f90") /\
    full !! "value" = Some (JStr "0x0") /\
    full !! "to" = Some (JStr "") /\
    full !! "data" = Some (JStr "").
Proof.
  destruct (C8_construct_full_transaction_defaults
              {[ "from" := JStr "0xAA" ]} (JStr "0xAA") two_outstanding 8
              (get_nonce this (JStr "0xAA") two_outstanding).2
              (JStr "0x4a817c800")
              (construct_full_transaction this (JObj {[ "from" := JStr "0xAA" ]})
                 two_outstanding).2)
    as (full & Hrun & Hkeep & Hnonce & Hprice & Hgas & Hvalue & Hto & Hdata & _).
  - reflexivity.
  - vm_compute. reflexivity.
  - vm_compute. reflexivity.
  - exists full. split; [exact Hrun|]. split; [by apply Hkeep|].
    split; [by apply Hnonce|]. split; [by apply Hprice|]. split; [by apply Hgas|].
    split; [by apply Hvalue|]. split; [by apply Hto|]. by apply Hdata.
Defined.

(** C9 as stated fails: the broadcast is attempted and raises, and the
    confirmed hash [0xh3], tracked before the call, is no longer tracked
    after it. *)
Lemma C9_failed_broadcast_changes_table :
  ((this "eth_sendTransaction" send_from_AA signer_down).1 =
     Err (Raised "connection refused")) /\
  (calls (this "eth_sendTransaction" send_from_AA signer_down).2 !! 3%nat =
     Some ("eth_sendRawTransaction", [JStr signed_hex])) /\
  ("0xh3" ∈ tracked signer_down "0xAA") /\
  ("0xh3" ∉ tracked (this "eth_sendTransaction" send_from_AA signer_down).2 "0xAA") /\
  (known_transactions (this "eth_sendTransaction" send_from_AA signer_down).2
     <> known_transactions signer_down).
Proof.
  split; [by vm_compute|]. split; [by vm_compute|].
  split; [compute_done|]. split; compute_done.
Qed.

Lemma C9_failed_broadcast_keeps_pruned_table_witness :
  this "eth_sendTransaction" send_from_AA signer_down =
    (Err (Raised "connection refused"),
     (this "eth_sendTransaction" send_from_AA signer_down).2) /\
  forall b, tracked (this "eth_sendTransaction" send_from_AA signer_down).2 b
              ⊆ tracked signer_down b.
Proof.
  destruct (C9_failed_broadcast_keeps_pruned_table signer_down send_from_AA
              (JObj {[ "from" := JStr "0xAA" ]})
              (value_of ∅ (construct_full_transaction this
                             (JObj {[ "from" := JStr "0xAA" ]}) signer_down).1)
              (construct_full_transaction this (JObj {[ "from" := JStr "0xAA" ]})
                 signer_down).2
              signed_bytes
              (construct_full_transaction this (JObj {[ "from" := JStr "0xAA" ]})
                 signer_down).2
              (Raised "connection refused")
              (this "eth_sendTransaction" send_from_AA signer_down).2)
    as (Hcall & a & c & sc & ns & sr & _ & _ & _ & _ & Hsub & _).
  - reflexivity.
  - vm_compute. reflexivity.
  - vm_compute. reflexivity.
  - vm_compute. reflexivity.
  - split; [exact Hcall|exact Hsub].
Defined.

(** * Further properties *)

(** ** The request manager *)

Section RequestManagerExtras.

Context {runtime : Runtime}.

Lemma unwrap_response_non_object (response : json) :
  (forall fields, response <> JObj fields) -> unwrap_response response = Err TypeError.
Proof.
  intros Hno. unfold unwrap_response.
  destruct response as [|b|n|text|items|fields]; simpl; try done.
  - by destruct (String.index 0 "error" text).
  - by destruct (existsb _ items).
  - by destruct (Hno fields).
Qed.

(** X1. A response body that decodes to anything but an object (a list, a
    string, a number, a boolean, [None]) makes [request_blocking] raise
    [TypeError], from the membership test or from the indexing that follows
    it. *)
Theorem X1_request_blocking_non_object_raises (s : manager) (method : string)
    (params : list json) (raw : string) (w : net) (text : string) (response : json) :
  provider s method params (world s) = (Ok raw, w) ->
  force_text raw = Ok text ->
  json_loads text = Ok response ->
  (forall fields, response <> JObj fields) ->
  request_blocking method params s = (Err TypeError, with_world w s).
Proof.
  intros Hp Hf Hj Hno.
  rewrite (request_blocking_decoded _ _ _ _ _ _ _ Hp Hf Hj).
  by rewrite unwrap_response_non_object.
Qed.

(** X2. [request_blocking] raises what the transport raises, what
    [force_text] raises and what [json.loads] raises, each without going
    further; and whatever its outcome it leaves the pending table, the
    spawned tasks and the provider of the manager as they were. *)
Theorem X2_request_blocking_failures_propagate (s : manager) (method : string)
    (params : list json) :
  (forall e w,
     provider s method params (world s) = (Err e, w) ->
     request_blocking method params s = (Err e, with_world w s)) /\
  (forall raw w e,
     provider s method params (world s) = (Ok raw, w) ->
     force_text raw = Err e ->
     request_blocking method params s = (Err e, with_world w s)) /\
  (forall raw w text e,
     provider s method params (world s) = (Ok raw, w) ->
     force_text raw = Ok text ->
     json_loads text = Err e ->
     request_blocking method params s = (Err e, with_world w s)) /\
  pending_requests (request_blocking method params s).2 = pending_requests s /\
  hub (request_blocking method params s).2 = hub s /\
  provider (request_blocking method params s).2 = provider s.
Proof.
  split; [|split; [|split; [|split; [|split]]]].
  - intros e w Hp. unfold request_blocking, make_request, mbind, M_bind. by rewrite Hp.
  - intros raw w e Hp Hf.
    unfold request_blocking, make_request, mbind, M_bind, lift_res. by rewrite Hp, Hf.
  - intros raw w text e Hp Hf Hj.
    unfold request_blocking, make_request, mbind, M_bind, lift_res. by rewrite Hp, Hf, Hj.
  - apply request_blocking_pending.
  - apply request_blocking_hub.
  - by destruct (request_blocking_frame method params s) as [w ->].
Qed.

(** The outcome of [request_blocking] depends on the provider and the world
    alone. *)
Lemma request_blocking_outcome_pending f method params s :
  request_blocking method params (with_pending f s) =
    ((request_blocking method params s).1,
     with_pending f (request_blocking method params s).2).
Proof.
  unfold request_blocking, make_request, mbind, M_bind, lift_res. simpl.
  destruct (provider s method params (world s)) as [[raw|e] w]; [|done].
  destruct (force_text raw) as [text|e]; [|done].
  by destruct (json_loads text) as [response|e].
Qed.

Lemma request_async_task method params s :
  hub (request_async method params s).2 !! length (hub s) = Some (Started method params) /\
  pending_requests (request_async method params s).2 !! (uuid4 (world s)).1 =
    Some (length (hub s)).
Proof.
  rewrite request_async_unfold. simpl. split.
  - rewrite lookup_app_r by lia. by rewrite Nat.sub_diag.
  - by rewrite lookup_insert_eq.
Qed.

Lemma run_greenlet_idle g s :
  (forall method params, hub s !! g <> Some (Started method params)) ->
  run_greenlet g s = (Ok tt, s).
Proof.
  intros Hg. unfold run_greenlet.
  destruct (hub s !! g) as [[method params|outcome]|]; [|done..]. by destruct (Hg method params).
Qed.

Lemma run_greenlets_idle gs : forall s,
  (forall g method params, g ∈ gs -> hub s !! g <> Some (Started method params)) ->
  run_greenlets gs s = (Ok tt, s).
Proof.
  induction gs as [|g gs IH]; intros s Hgs; [done|].
  rewrite run_greenlets_cons, run_greenlet_idle.
  - apply IH. intros g' method params Hg'. apply Hgs. by right.
  - intros method params. apply Hgs. by left.
Qed.

Lemma settled_lookup s g method params :
  settled s -> hub s !! g <> Some (Started method params).
Proof.
  unfold settled. rewrite forallb_forall. intros Hs Hg.
  apply list_elem_of_lookup_2, list_elem_of_In, Hs in Hg. discriminate.
Qed.

Lemma run_greenlet_other g g' s :
  g <> g' -> hub (run_greenlet g s).2 !! g' = hub s !! g'.
Proof.
  intros Hne. unfold run_greenlet.
  destruct (hub s !! g) as [[method params|outcome]|]; [|done..].
  pose proof (request_blocking_hub method params s) as Hh.
  destruct (request_blocking method params s) as [o s']. simpl in *.
  by rewrite list_lookup_insert_ne, Hh.
Qed.

Lemma run_greenlets_other gs g' : forall s,
  g' ∉ gs -> hub (run_greenlets gs s).2 !! g' = hub s !! g'.
Proof.
  induction gs as [|g gs IH]; intros s Hg'; [done|].
  apply not_elem_of_cons in Hg' as [Hne Hg'].
  rewrite run_greenlets_cons, IH, run_greenlet_other; done.
Qed.

Lemma run_greenlet_with_pending f g s :
  run_greenlet g (with_pending f s) = (Ok tt, with_pending f (run_greenlet g s).2).
Proof.
  unfold run_greenlet. simpl.
  destruct (hub s !! g) as [[method params|outcome]|]; [|done..].
  rewrite request_blocking_outcome_pending.
  by destruct (request_blocking method params s).
Qed.

Lemma run_greenlets_with_pending f gs : forall s,
  run_greenlets gs (with_pending f s) = (Ok tt, with_pending f (run_greenlets gs s).2).
Proof.
  induction gs as [|g gs IH]; intros s; [done|].
  rewrite !run_greenlets_cons, run_greenlet_with_pending. simpl. by rewrite IH.
Qed.

(** The turns of the hub as events. *)
Lemma run_schedule gs : forall s, run (map Schedule gs) s = (run_greenlets gs s).2.
Proof.
  induction gs as [|g gs IH]; intros s; [done|].
  rewrite run_greenlets_cons. simpl. apply IH.
Qed.

(** X3. A request that fails in its task fails the same way at
    [receive_blocking].  The task runs once the hub has run the tasks
    spawned before it; the exception [request_blocking] raises there is the
    one [receive_blocking] raises, whether the hub runs the tasks during
    the wait or had given them their turns before. *)
Theorem X3_async_failure_surfaces_at_receive (s : manager) (request_id : string)
    (task : nat) (method : string) (params : list json) (e : exn) :
  pending_requests s !! request_id = Some task ->
  hub s !! task = Some (Started method params) ->
  (request_blocking method params (run_greenlets (seq 0 task) s).2).1 = Err e ->
  (receive_blocking request_id None s).1 = Err e /\
  (forall timeout,
     (receive_blocking request_id timeout (run (map Schedule (seq 0 (S task))) s)).1 = Err e).
Proof.
  intros Hp Hh He. split.
  - rewrite receive_blocking_unfold, Hp. unfold greenlet_get. simpl. rewrite Hh.
    rewrite run_greenlets_with_pending. simpl.
    rewrite request_blocking_outcome_pending, He. simpl.
    by destruct (run_greenlets _ _).
  - intros timeout. rewrite run_schedule.
    replace (seq 0 (S task)) with (seq 0 task ++ [task])%list by (by rewrite seq_S).
    set (s1 := (run_greenlets (seq 0 task) s).2) in *.
    assert (Hrun : run_greenlets (seq 0 task ++ [task]) s = run_greenlet task s1).
    { unfold s1. clear. generalize (seq 0 task). intros gs. revert s.
      induction gs as [|g gs IH]; intros s; simpl app.
      - rewrite run_greenlets_cons. simpl. unfold mret, M_ret.
        by destruct (run_greenlet task s) as [[[]|?] ?] eqn:E;
          pose proof (run_greenlet_returns task s) as Hr; rewrite E in Hr.
      - by rewrite !run_greenlets_cons, IH. }
    rewrite Hrun.
    assert (Hh1 : hub s1 !! task = Some (Started method params)).
    { unfold s1. rewrite run_greenlets_other; [done|].
      intros Hin%elem_of_seq. lia. }
    rewrite receive_blocking_unfold, run_greenlet_pending.
    unfold s1 at 1. rewrite run_greenlets_pending, Hp.
    rewrite (greenlet_get_finished _ (Err e)); [done|]. simpl.
    rewrite (run_greenlet_started _ _ _ _ Hh1). simpl.
    rewrite request_blocking_hub, He. apply list_lookup_insert_eq.
    by apply lookup_lt_Some in Hh1.
Qed.


(** X5. The provider is read when a task runs, not when it is spawned:
    replacing the provider after [request_async] gives the manager that
    replacing it before would have given; and when no other task is still
    to run, the wait sends the request of the task, and nothing else, to
    the new provider. *)
Theorem X5_set_provider_reaches_spawned_tasks (s : manager) (method : string)
    (params : list json) (p : provider_t) :
  run [Request_async method params; Set_provider p] s =
    run [Set_provider p; Request_async method params] s /\
  (settled s ->
   world (receive_blocking (uuid4 (world s)).1 None
            (run [Request_async method params; Set_provider p] s)).2 =
     (p method params (uuid4 (world s)).2).2).
Proof.
  assert (Hrun : run [Request_async method params; Set_provider p] s =
                 run [Set_provider p; Request_async method params] s).
  { unfold run. simpl. by rewrite !request_async_unfold. }
  split; [done|]. intros Hs.
  unfold run. simpl. rewrite request_async_unfold. simpl.
  rewrite receive_blocking_unfold. simpl. rewrite lookup_insert_eq.
  unfold greenlet_get. simpl. rewrite lookup_app_r by lia. rewrite Nat.sub_diag. simpl.
  rewrite run_greenlets_idle.
  2:{ intros g m ps Hg%elem_of_seq. simpl.
      rewrite lookup_app_l by lia. by apply settled_lookup. }
  rewrite length_app. simpl.
  replace (length (hub s) + 1 - S (length (hub s)))%nat with 0%nat by lia.
  unfold request_blocking, make_request, mbind, M_bind, lift_res. simpl.
  destruct (p method params (uuid4 (world s)).2) as [[raw|e] w]; [|done]. simpl.
  destruct (force_text raw) as [text|e]; [|done]. simpl.
  destruct (json_loads text) as [response|e]; [|done]. simpl.
  destruct (unwrap_response response) as [v|e]; [|done]. simpl.
  by destruct (decode_task_value v).
Qed.

Lemma advances_refl h : advances h h.
Proof.
  split; [done|]. intros g. destruct (h !! g) as [[m p|o]|]; auto.
Qed.

Lemma advances_trans h1 h2 h3 : advances h1 h2 -> advances h2 h3 -> advances h1 h3.
Proof.
  intros [L1 A1] [L2 A2]. split; [lia|]. intros g.
  specialize (A1 g). specialize (A2 g).
  destruct (h1 !! g) as [[m p|o]|]; [|by rewrite A1 in A2|done].
  destruct A1 as [A1|[o A1]]; rewrite A1 in A2; [done|]. right. by exists o.
Qed.

Lemma advances_app h task : advances h (h ++ [task]).
Proof.
  split; [rewrite length_app; lia|]. intros g.
  destruct (h !! g) as [[m p|o]|] eqn:E; [| |done].
  - left. by apply lookup_app_l_Some.
  - by apply lookup_app_l_Some.
Qed.

Lemma advances_finish h g method params outcome :
  h !! g = Some (Started method params) -> advances h (<[g := Finished outcome]> h).
Proof.
  intros Hg. split; [by rewrite length_insert|]. intros g'.
  destruct (decide (g' = g)) as [->|Hne].
  - rewrite Hg. right. exists outcome. apply list_lookup_insert_eq.
    by apply lookup_lt_Some in Hg.
  - rewrite list_lookup_insert_ne by done. destruct (h !! g') as [[m p|o]|]; auto.
Qed.

Lemma run_greenlet_advances g s : advances (hub s) (hub (run_greenlet g s).2).
Proof.
  unfold run_greenlet. destruct (hub s !! g) as [[method params|outcome]|] eqn:E;
    try apply advances_refl.
  pose proof (request_blocking_hub method params s) as Hh.
  destruct (request_blocking method params s) as [o s']. simpl in *. rewrite Hh.
  by eapply advances_finish.
Qed.

Lemma run_greenlets_advances gs : forall s, advances (hub s) (hub (run_greenlets gs s).2).
Proof.
  induction gs as [|g gs IH]; intros s; [apply advances_refl|].
  rewrite run_greenlets_cons.
  eapply advances_trans; [apply run_greenlet_advances|apply IH].
Qed.

Lemma greenlet_get_advances g timeout s : advances (hub s) (hub (greenlet_get g timeout s).2).
Proof.
  unfold greenlet_get. destruct (hub s !! g) as [[method params|outcome]|] eqn:E;
    try apply advances_refl.
  destruct (match timeout with Some t => _ | None => _ end); [apply advances_refl|].
  set (earlier := (run_greenlets (seq 0 g) s).2).
  assert (Hg : hub earlier !! g = Some (Started method params)).
  { unfold earlier. rewrite run_greenlets_other; [done|]. intros Hin%elem_of_seq. lia. }
  pose proof (request_blocking_hub method params earlier) as Hh.
  destruct (request_blocking method params earlier) as [o s']. simpl in *.
  eapply advances_trans; [apply run_greenlets_advances|]. fold earlier.
  eapply advances_trans; [|apply run_greenlets_advances]. simpl. rewrite Hh.
  by eapply advances_finish.
Qed.

Lemma step_advances ev s : advances (hub s) (hub (step ev s)).
Proof.
  destruct ev as [m p|m p|r t|p|g]; unfold step.
  - rewrite request_blocking_hub. apply advances_refl.
  - rewrite request_async_unfold. simpl. apply advances_app.
  - rewrite receive_blocking_unfold.
    destruct (pending_requests s !! r) as [task|]; [|apply advances_refl].
    pose proof (greenlet_get_advances task t (with_pending (delete r) s)) as Ha.
    by destruct (greenlet_get task t _) as [[v|e] s'].
  - apply advances_refl.
  - apply run_greenlet_advances.
Qed.

Lemma run_advances evs : forall s, advances (hub s) (hub (run evs s)).
Proof.
  induction evs as [|ev evs IH]; intros s; [apply advances_refl|].
  eapply advances_trans; [apply step_advances|apply IH].
Qed.

Lemma step_handles_valid ev s : handles_valid s -> handles_valid (step ev s).
Proof.
  intros Hv request_id task Hp.
  pose proof (step_advances ev s) as [Hlen _].
  destruct ev as [m p|m p|r t|p|g]; unfold step in *.
  - rewrite request_blocking_pending in Hp. specialize (Hv _ _ Hp). lia.
  - rewrite request_async_unfold in Hp. simpl in Hp.
    rewrite request_async_unfold. simpl. rewrite length_app. simpl.
    apply lookup_insert_Some in Hp as [[_ <-]|[_ Hp]]; [lia|].
    specialize (Hv _ _ Hp). lia.
  - rewrite receive_blocking_pending in Hp.
    apply lookup_delete_Some in Hp as [_ Hp]. specialize (Hv _ _ Hp). lia.
  - by apply (Hv request_id task).
  - rewrite run_greenlet_pending in Hp. specialize (Hv _ _ Hp). lia.
Qed.

Lemma run_handles_valid evs : forall s, handles_valid s -> handles_valid (run evs s).
Proof.
  induction evs as [|ev evs IH]; intros s Hv; [done|].
  apply IH. by apply step_handles_valid.
Qed.

(** X6. Over any sequence of calls and task turns the hub never loses a
    task, a finished task keeps the outcome it finished with (a task runs at
    most once), and in every state reached from a new manager each pending
    id refers to a spawned task. *)
Theorem X6_tasks_run_at_most_once (evs : list event) (s : manager) :
  (length (hub s) <= length (hub (run evs s)))%nat /\
  (forall task outcome,
     hub s !! task = Some (Finished outcome) ->
     hub (run evs s) !! task = Some (Finished outcome)) /\
  (forall task method params,
     hub s !! task = Some (Started method params) ->
     hub (run evs s) !! task = Some (Started method params) \/
     exists outcome, hub (run evs s) !! task = Some (Finished outcome)) /\
  (forall p w request_id task,
     pending_requests (run evs (init p w)) !! request_id = Some task ->
     is_Some (hub (run evs (init p w)) !! task)).
Proof.
  destruct (run_advances evs s) as [Hlen Ha].
  split; [done|]. split; [|split].
  - intros task outcome Hh. specialize (Ha task). by rewrite Hh in Ha.
  - intros task method params Hh. specialize (Ha task). by rewrite Hh in Ha.
  - intros p w request_id task Hp. apply lookup_lt_is_Some.
    apply (run_handles_valid evs (init p w)) in Hp; [done|].
    intros r t Hr. simpl in Hr. by rewrite lookup_empty in Hr.
Qed.

End RequestManagerExtras.

(** ** The interceptor *)

Section InterceptorExtras.

Context {setup : Setup}.

(** X7. For a method outside [TXN_SENDING_METHODS] the interceptor is
    transparent: [request_blocking] is the call of the wrapped manager, with
    its result or exception, one request forwarded and the tracking table
    untouched. *)
Theorem X7_other_methods_pass_through (method : string) (params : list json)
    (s : interceptor) :
  method ∉ TXN_SENDING_METHODS ->
  this method params s = wrapper_request_blocking method params s /\
  known_transactions (this method params s).2 = known_transactions s /\
  calls (this method params s).2 = (calls s ++ [(method, params)])%list.
Proof.
  intros Hm.
  assert (Hb : this method params s = wrapper_request_blocking method params s)
    by apply (bound_plain 2 method Hm).
  rewrite Hb. split; [done|]. split.
  - apply (known_blind_preserves _ s (known_blind_wrapper method params)).
  - apply wrapper_calls.
Qed.

Lemma sign_and_serialize_base transaction s :
  cls = BaseSendRawTransactionMixin ->
  exists e, sign_and_serialize_transaction transaction s = (Err e, s).
Proof.
  intros Hc. unfold sign_and_serialize_transaction, get_transaction_signature.
  rewrite Hc. unfold mbind, M_bind, lift_res, raise.
  destruct (serialize_transaction transaction); by eexists.
Qed.

Lemma forwards_only_bind_raises (P : string -> Prop) {A B}
    (m : M interceptor A) (k : A -> M interceptor B) :
  (forall s, exists e, (m s).1 = Err e) ->
  forwards_only P m -> forwards_only P (m ≫= k).
Proof.
  intros Hr Hm s. unfold mbind, M_bind.
  destruct (Hr s) as [e He]. destruct (Hm s) as (new & Hc & Hf).
  destruct (m s) as [[a|e'] s1]; simpl in *; [discriminate|]. by exists new.
Qed.

(** X8. An interceptor of the base class, which has no signer, never
    broadcasts: every [eth_sendTransaction] raises, and the only requests
    that reach the wrapped manager are the queries made while the
    transaction is constructed. *)
Theorem X8_base_class_never_broadcasts (params : list json) (s : interceptor) :
  cls = BaseSendRawTransactionMixin ->
  (exists e, (this "eth_sendTransaction" params s).1 = Err e) /\
  (exists new,
     calls (this "eth_sendTransaction" params s).2 = (calls s ++ new)%list /\
     Forall (fun c => c.1 ∈ queries) new).
Proof.
  intros Hc.
  change (this "eth_sendTransaction" params s)
    with (bound_request_blocking 3 "eth_sendTransaction" params s).
  rewrite (bound_send 0 params s). split.
  - unfold mbind at 1. unfold M_bind at 1. unfold lift_res at 1.
    destruct (py_first params) as [base|e]; [|by eexists].
    unfold mbind at 1. unfold M_bind at 1.
    destruct (construct_full_transaction direct base s) as [[full|e] s1]; [|by eexists].
    unfold mbind, M_bind.
    destruct (sign_and_serialize_base full s1 Hc) as [e ->]. by eexists.
  - revert s.
    change (forwards_only (fun m => m ∈ queries)
              (base_transaction ← lift_res (py_first params);
               full_transaction ← construct_full_transaction direct base_transaction;
               raw_transaction_bytes ← sign_and_serialize_transaction full_transaction;
               request_blocking_mixin direct "eth_sendRawTransaction"
                 [JStr (encode_hex raw_transaction_bytes)])).
    apply forwards_only_bind; [apply forwards_only_lift|intros base].
    apply forwards_only_bind; [by apply forwards_only_construct|intros full].
    apply forwards_only_bind_raises; [|apply forwards_only_sign].
    intros s. destruct (sign_and_serialize_base full s Hc) as [e ->]. by eexists.
Qed.

Lemma forward_lookup_raises method params s result s1 e s2 :
  method ∈ TXN_SENDING_METHODS -> method <> "eth_sendTransaction" ->
  wrapper_request_blocking method params s = (Ok result, s1) ->
  direct "eth_getTransactionByHash" [result] s1 = (Err e, s2) ->
  request_blocking_mixin direct method params s = (Err e, s2).
Proof.
  intros Hin Hne Hw Hl. unfold request_blocking_mixin.
  destruct (String.eqb_spec method "eth_sendTransaction") as [|_]; [done|].
  rewrite (bind_ok _ _ _ _ _ Hw), bool_decide_eq_true_2 by done.
  by rewrite (bind_err _ _ _ _ _ Hl).
Qed.

Lemma forward_sender_missing method params s result s1 txn s2 e :
  method ∈ TXN_SENDING_METHODS -> method <> "eth_sendTransaction" ->
  wrapper_request_blocking method params s = (Ok result, s1) ->
  direct "eth_getTransactionByHash" [result] s1 = (Ok txn, s2) ->
  py_getitem txn "from" = Err e ->
  request_blocking_mixin direct method params s = (Err e, s2).
Proof.
  intros Hin Hne Hw Hl Hf. unfold request_blocking_mixin.
  destruct (String.eqb_spec method "eth_sendTransaction") as [|_]; [done|].
  rewrite (bind_ok _ _ _ _ _ Hw), bool_decide_eq_true_2 by done.
  rewrite (bind_ok _ _ _ _ _ Hl), Hf. done.
Qed.

(** X9. When a sending method has been forwarded and has returned a hash,
    a failure of the lookup that follows makes [request_blocking] raise
    although the transaction went out: the exception of the lookup, or the
    [TypeError] or [KeyError] of taking [from] out of what the lookup
    returned ([None] for a hash the node does not know).  The hash is not
    tracked. *)
Theorem X9_lookup_failure_loses_the_hash (method : string) (params : list json)
    (s : interceptor) (result : json) (s1 : interceptor) :
  method ∈ TXN_SENDING_METHODS -> method <> "eth_sendTransaction" ->
  wrapper_request_blocking method params s = (Ok result, s1) ->
  (forall e s2,
     this "eth_getTransactionByHash" [result] s1 = (Err e, s2) ->
     this method params s = (Err e, s2) /\
     known_transactions s2 = known_transactions s) /\
  (forall txn s2 e,
     this "eth_getTransactionByHash" [result] s1 = (Ok txn, s2) ->
     py_getitem txn "from" = Err e ->
     this method params s = (Err e, s2) /\
     known_transactions s2 = known_transactions s) /\
  (forall s2,
     this "eth_getTransactionByHash" [result] s1 = (Ok JNull, s2) ->
     this method params s = (Err TypeError, s2)).
Proof.
  intros Hin Hne Hw.
  pose proof (known_blind_preserves _ s (known_blind_wrapper method params)) as K1.
  rewrite Hw in K1. simpl in K1.
  assert (Hk : forall r s2, this "eth_getTransactionByHash" [result] s1 = (r, s2) ->
                 known_transactions s2 = known_transactions s).
  { intros r s2 Hl. rewrite this_direct in Hl by compute_done.
    pose proof (known_blind_preserves _ s1
                  (known_blind_wrapper "eth_getTransactionByHash" [result])) as K2.
    unfold direct in Hl. rewrite Hl in K2. simpl in K2. congruence. }
  split; [|split].
  - intros e s2 Hl. split; [|by eapply Hk].
    rewrite this_direct in Hl by compute_done.
    rewrite (this_forward method params Hne s). by eapply forward_lookup_raises.
  - intros txn s2 e Hl Hf. split; [|by eapply Hk].
    rewrite this_direct in Hl by compute_done.
    rewrite (this_forward method params Hne s). by eapply forward_sender_missing.
  - intros s2 Hl. rewrite this_direct in Hl by compute_done.
    rewrite (this_forward method params Hne s).
    by eapply (forward_sender_missing _ _ _ _ _ JNull).
Qed.

(** X10. An [eth_sendTransaction] whose parameter list is empty raises
    [IndexError]; one whose first parameter is not a dictionary raises
    [TypeError]; one whose dictionary has no [from] raises [KeyError].  In
    all three cases nothing has been asked of anyone and nothing has
    changed. *)
Theorem X10_malformed_send_transaction (s : interceptor) :
  this "eth_sendTransaction" [] s = (Err IndexError, s) /\
  (forall base rest,
     (forall fields, base <> JObj fields) ->
     this "eth_sendTransaction" (base :: rest) s = (Err TypeError, s)) /\
  (forall fields rest,
     fields !! "from" = None ->
     this "eth_sendTransaction" (JObj fields :: rest) s = (Err (KeyError "from"), s)).
Proof.
  split; [|split].
  - change (this "eth_sendTransaction" [] s)
      with (bound_request_blocking 3 "eth_sendTransaction" [] s).
    by rewrite (bound_send 0 [] s).
  - intros base rest Hno.
    change (this "eth_sendTransaction" (base :: rest) s)
      with (bound_request_blocking 3 "eth_sendTransaction" (base :: rest) s).
    rewrite (bound_send 0 (base :: rest) s). simpl py_first. run_lift.
    unfold construct_full_transaction. unfold mbind at 1. unfold M_bind at 1.
    unfold mbind at 1. unfold M_bind at 1. unfold lift_res at 1.
    destruct base as [|b|n|text|items|fields]; try done. by destruct (Hno fields).
  - intros fields rest Hf.
    change (this "eth_sendTransaction" (JObj fields :: rest) s)
      with (bound_request_blocking 3 "eth_sendTransaction" (JObj fields :: rest) s).
    rewrite (bound_send 0 (JObj fields :: rest) s). simpl py_first. run_lift.
    unfold construct_full_transaction. unfold mbind at 1. unfold M_bind at 1.
    unfold mbind at 1. unfold M_bind at 1. unfold lift_res at 1.
    simpl. by rewrite Hf.
Qed.

Lemma setdefault_present key value (d : gmap string json) :
  is_Some (d !! key) -> setdefault key value d = d.
Proof. intros [x Hx]. unfold setdefault. by rewrite Hx. Qed.

(** X11. The nonce and the gas price are obtained whether or not the base
    transaction supplies them: when the base has all seven fields the
    result is the base itself, yet only once [get_nonce] and [eth_gasPrice]
    have returned, and a failure of either fails the construction. *)
Theorem X11_construction_always_asks_the_node (base : gmap string json)
    (sender : json) (s : interceptor) :
  base !! "from" = Some sender ->
  (forall nonce s1 price s2,
     (forall k, k ∈ ["nonce"; "gasPrice"; "gas"; "value"; "to"; "data"] ->
                is_Some (base !! k)) ->
     get_nonce this sender s = (Ok nonce, s1) ->
     this "eth_gasPrice" [] s1 = (Ok price, s2) ->
     construct_full_transaction this (JObj base) s = (Ok base, s2)) /\
  (forall nonce s1 e s2,
     get_nonce this sender s = (Ok nonce, s1) ->
     this "eth_gasPrice" [] s1 = (Err e, s2) ->
     construct_full_transaction this (JObj base) s = (Err e, s2)) /\
  (forall e s1,
     get_nonce this sender s = (Err e, s1) ->
     construct_full_transaction this (JObj base) s = (Err e, s1)).
Proof.
  intros Hfrom.
  assert (Hstart :
            construct_full_transaction this (JObj base) s =
              (nonce ← get_nonce this sender;
               gas_price ← this "eth_gasPrice" [];
               mret (setdefault "data" (JStr "")
                       (setdefault "to" (JStr "")
                          (setdefault "value" (JStr "0x0")
                             (setdefault "gas" (JStr (hex 90000))
                                (setdefault "gasPrice" gas_price
                                   (setdefault "nonce" (JNum nonce) base))))))) s).
  { unfold construct_full_transaction. simpl py_getitem. rewrite Hfrom.
    simpl py_dict. by do 2 run_lift. }
  rewrite Hstart. split; [|split].
  - intros nonce s1 price s2 Hall Hn Hp.
    rewrite (bind_ok _ _ _ _ _ Hn), (bind_ok _ _ _ _ _ Hp).
    unfold mret, M_ret. f_equal. f_equal.
    rewrite (setdefault_present "nonce") by (apply Hall; compute_done).
    rewrite (setdefault_present "gasPrice") by (apply Hall; compute_done).
    rewrite (setdefault_present "gas") by (apply Hall; compute_done).
    rewrite (setdefault_present "value") by (apply Hall; compute_done).
    rewrite (setdefault_present "to") by (apply Hall; compute_done).
    by rewrite (setdefault_present "data") by (apply Hall; compute_done).
  - intros nonce s1 e s2 Hn Hp.
    by rewrite (bind_ok _ _ _ _ _ Hn), (bind_err _ _ _ _ _ Hp).
  - intros e s1 Hn. by rewrite (bind_err _ _ _ _ _ Hn).
Qed.

Lemma order_empty : order (∅ : gset string) = [].
Proof.
  apply Permutation_nil_r. rewrite (set_iter_perm order ∅). by rewrite elements_empty.
Qed.

(** X12. For an address under which nothing is tracked, [get_nonce] makes
    no lookup: its result is the chain nonce, or 0 for a negative one, and
    its only trace in the table is an empty entry for the address. *)
Theorem X12_get_nonce_with_nothing_tracked (a : string) (s : interceptor)
    (c : Z) (s1 : interceptor) :
  tracked s a = ∅ ->
  get_chain_nonce this (JStr a) s = (Ok c, s1) ->
  get_nonce this (JStr a) s = (Ok (Z.max 0 c), with_known (<[a := ∅]>) s1).
Proof.
  intros Ht Hc.
  rewrite (get_nonce_ok this this_count this_by_hash a s c s1 [] s1 Hc).
  - unfold pruned. rewrite Ht, order_empty. simpl.
    by rewrite difference_empty_L.
  - by rewrite Ht, order_empty.
Qed.

(** X13. The chain nonce of a delegated signer is the larger of the two
    pending counts, the signature manager's being asked first; when that
    first request raises, or its answer is no number, the wrapped manager
    is not asked at all. *)
Theorem X13_delegated_chain_nonce (self : bound_method) (addr : json) (s : interceptor) :
  cls = DelegatedSigningManager ->
  (forall signer_count w1 signer_nonce wrapped_count w2 wrapped_nonce,
     signer_request_blocking "eth_getTransactionCount" [addr; JStr "pending"] (inner s)
       = (Ok signer_count, w1) ->
     to_decimal signer_count = Ok signer_nonce ->
     wrapped_request_blocking "eth_getTransactionCount" [addr; JStr "pending"] w1
       = (Ok wrapped_count, w2) ->
     to_decimal wrapped_count = Ok wrapped_nonce ->
     get_chain_nonce self addr s =
       (Ok (Z.max signer_nonce wrapped_nonce),
        Interceptor (known_transactions s) w2
          (calls s ++ [("eth_getTransactionCount", [addr; JStr "pending"])])%list)) /\
  (forall e w1,
     signer_request_blocking "eth_getTransactionCount" [addr; JStr "pending"] (inner s)
       = (Err e, w1) ->
     get_chain_nonce self addr s =
       (Err e, Interceptor (known_transactions s) w1 (calls s))) /\
  (forall signer_count w1 e,
     signer_request_blocking "eth_getTransactionCount" [addr; JStr "pending"] (inner s)
       = (Ok signer_count, w1) ->
     to_decimal signer_count = Err e ->
     get_chain_nonce self addr s =
       (Err e, Interceptor (known_transactions s) w1 (calls s))).
Proof.
  intros Hc. unfold get_chain_nonce. rewrite Hc.
  unfold signature_manager_request_blocking, wrapper_request_blocking,
    mbind, M_bind, lift_res, mret, M_ret.
  split; [|split].
  - intros sc w1 sn wc w2 wn Hs Hds Hw Hdw. rewrite Hs, Hds. simpl.
    by rewrite Hw, Hdw.
  - intros e w1 Hs. by rewrite Hs.
  - intros sc w1 e Hs Hds. by rewrite Hs, Hds.
Qed.

(** X14. Signing talks to the signature manager alone: whatever its
    outcome, [sign_and_serialize_transaction] leaves the tracking table as
    it was and hands no request to the wrapped manager; and when the
    transaction cannot be serialized nobody is asked for a signature. *)
Theorem X14_signing_spares_table_and_wrapped_manager (transaction : gmap string json)
    (s : interceptor) :
  known_transactions (sign_and_serialize_transaction transaction s).2
    = known_transactions s /\
  calls (sign_and_serialize_transaction transaction s).2 = calls s /\
  (forall e, serialize_transaction transaction = Err e ->
             sign_and_serialize_transaction transaction s = (Err e, s)).
Proof.
  split; [|split].
  - apply (known_blind_preserves _ s (known_blind_sign_and_serialize transaction)).
  - destruct (forwards_only_sign (fun _ => False) transaction s) as (new & Hc & Hf).
    destruct new as [|c new]; [by rewrite Hc, app_nil_r|].
    by apply Forall_cons in Hf as [[] _].
  - intros e He. unfold sign_and_serialize_transaction, mbind, M_bind, lift_res.
    by rewrite He.
Qed.

(** X15. [request_blocking] calls itself at most three deep (the
    interception, the raw send, the lookup of the hash): with any allowance
    of three or more nested calls the outcome and the effect are those of
    [this]. *)
Theorem X15_three_nested_calls_suffice (depth : nat) (method : string)
    (params : list json) (s : interceptor) :
  (3 <= depth)%nat ->
  bound_request_blocking depth method params s = this method params s.
Proof. intros Hd. by apply bound_request_blocking_stable. Qed.

End InterceptorExtras.

Section PruningExtras.

Context {setup : Setup}.

Lemma prunes_under_blind addr {A} (m : M interceptor A) :
  known_blind m -> prunes_under addr m.
Proof.
  intros Hb s. pose proof (known_blind_preserves m s Hb) as Hk.
  split; intros b; [unfold tracked|intros _]; by rewrite Hk.
Qed.

Lemma prunes_under_bind addr {A B} (m : M interceptor A) (k : A -> M interceptor B) :
  prunes_under addr m -> (forall a, prunes_under addr (k a)) ->
  prunes_under addr (m ≫= k).
Proof.
  intros Hm Hk s. unfold mbind, M_bind.
  destruct (Hm s) as [T1 O1]. destruct (m s) as [[a|e] s1]; simpl in *; [|done].
  destruct (Hk a s1) as [T2 O2]. split.
  - intros b. etrans; [apply T2|apply T1].
  - intros b Hb. by rewrite O2, O1.
Qed.

Lemma prunes_under_known_getitem addr : prunes_under addr (known_getitem addr).
Proof.
  intros s. unfold known_getitem, mbind, M_bind, lift_res.
  destruct addr as [| | |a| |]; simpl; try done.
  unfold defaultdict_getitem, tracked.
  destruct (known_transactions s !! a) eqn:E; simpl; [done|]. split.
  - intros b. destruct (decide (a = b)) as [->|Hne].
    + by rewrite lookup_insert_eq, E.
    + by rewrite lookup_insert_ne.
  - intros b Hb. rewrite lookup_insert_ne; [done|]. congruence.
Qed.

Lemma prunes_under_known_discard addr h : prunes_under addr (known_discard addr h).
Proof.
  intros s. unfold known_discard, known_getitem, mbind, M_bind, lift_res, modify.
  destruct addr as [| | |a| |]; simpl; try done.
  unfold defaultdict_getitem, tracked.
  destruct (known_transactions s !! a) eqn:E; simpl; split.
  - intros b. destruct (decide (a = b)) as [->|Hne].
    + rewrite lookup_insert_eq, E. simpl. by intros x [? _]%elem_of_difference.
    + by rewrite lookup_insert_ne.
  - intros b Hb. rewrite lookup_insert_ne; [done|]. congruence.
  - intros b. destruct (decide (a = b)) as [->|Hne].
    + rewrite insert_insert_eq, lookup_insert_eq, E. simpl.
      by intros x [? _]%elem_of_difference.
    + by rewrite !lookup_insert_ne.
  - intros b Hb. rewrite !lookup_insert_ne; [done|congruence..].
Qed.

Lemma prunes_under_cleanup_loop addr c hs :
  prunes_under addr (cleanup_loop this addr c hs).
Proof.
  induction hs as [|h hs IH]; simpl.
  - by apply prunes_under_blind.
  - apply prunes_under_bind.
    { apply prunes_under_blind, known_blind_lookup_nonce, this_by_hash. }
    intros n. destruct (n <=? c).
    + apply prunes_under_bind; [apply prunes_under_known_discard|intros _; apply IH].
    + apply prunes_under_bind; [apply IH|intros ys]. by apply prunes_under_blind.
Qed.

(** The loop stopped by a failing lookup: the hashes found confirmed
    before it have been removed, and the failure undoes nothing. *)
Lemma cleanup_loop_interrupted a c before h after : forall s X ns s2 e s3,
  known_transactions s !! a = Some X ->
  resolve_nonces this before s = (Ok ns, s2) ->
  lookup_nonce this h s2 = (Err e, s3) ->
  cleanup_loop this (JStr a) c (before ++ h :: after) s =
    (Err e, with_known (<[a := X ∖ list_to_set (confirmed c before ns)]>) s3).
Proof.
  pose proof (known_blind_lookup_nonce this h this_by_hash) as Bh.
  induction before as [|h0 before IH]; intros s X ns s2 e s3 HX Hr Hl.
  - unfold resolve_nonces in Hr. simpl in Hr. unfold mret, M_ret in Hr.
    injection Hr as <- <-. simpl app. rewrite cleanup_loop_cons, Hl. f_equal.
    pose proof (known_blind_preserves _ s Bh) as Hk. rewrite Hl in Hk. simpl in Hk.
    destruct s3 as [k w l]. unfold with_known. simpl in *. f_equal.
    rewrite difference_empty_L, insert_id; [done|]. by rewrite Hk.
  - rewrite resolve_nonces_cons in Hr.
    pose proof (known_blind_preserves (lookup_nonce this h0) s
                  (known_blind_lookup_nonce this h0 this_by_hash)) as Hk.
    simpl app. rewrite cleanup_loop_cons.
    destruct (lookup_nonce this h0 s) as [[n0|e0] s1]; [|done]. simpl in Hk.
    destruct (resolve_nonces this before s1) as [[ns'|e0] s2'] eqn:Hr'; [|done].
    injection Hr as <- <-.
    assert (HX1 : known_transactions s1 !! a = Some X) by by rewrite Hk.
    destruct (Z.leb_spec n0 c) as [Hle|Hgt].
    + rewrite (known_discard_tracked a X h0 s1 HX1).
      rewrite (IH (with_known (<[a := X ∖ {[h0]}]>) s1) (X ∖ {[h0]}) ns'
                 (with_known (<[a := X ∖ {[h0]}]>) s2') e
                 (with_known (<[a := X ∖ {[h0]}]>) s3)).
      * f_equal. rewrite with_known_compose. unfold with_known. f_equal.
        rewrite insert_insert_eq. f_equal. simpl.
        destruct (Z.leb_spec n0 c); [|lia].
        by rewrite list_to_set_cons, difference_difference_l_L.
      * simpl. by rewrite lookup_insert_eq.
      * by rewrite (known_blind_resolve this before this_by_hash), Hr'.
      * by rewrite Bh, Hl.
    + rewrite (IH s1 X ns' s2' e s3 HX1 Hr' Hl). simpl.
      destruct (Z.leb_spec n0 c); [lia|done].
Qed.

(** X16. Whether it returns or raises, [get_nonce] only removes hashes, and
    only under the address it was called for: no set of the table gains a
    hash, and the entry of every other address stays as it was.  A lookup
    that fails midway leaves the removals made before it in place: the
    call raises what the lookup raised, and under the address are left
    the hashes that were tracked, minus those that the lookups before the
    failing one found at or below the chain nonce. *)
Theorem X16_get_nonce_only_prunes (addr : json) (s : interceptor) :
  (forall b, tracked (get_nonce this addr s).2 b ⊆ tracked s b) /\
  (forall b, addr <> JStr b ->
             known_transactions (get_nonce this addr s).2 !! b
               = known_transactions s !! b) /\
  (forall a c s1 before h after ns s2 e s3,
     addr = JStr a ->
     get_chain_nonce this addr s = (Ok c, s1) ->
     order (tracked s a) = (before ++ h :: after)%list ->
     resolve_nonces this before s1 = (Ok ns, s2) ->
     lookup_nonce this h s2 = (Err e, s3) ->
     (get_nonce this addr s).1 = Err e /\
     known_transactions (get_nonce this addr s).2 =
       <[a := tracked s a ∖ list_to_set (confirmed c before ns)]> (known_transactions s)).
Proof.
  assert (Hprunes : prunes_under addr (get_nonce this addr)).
  { unfold get_nonce. apply prunes_under_bind.
    { apply prunes_under_blind, known_blind_get_chain_nonce, this_count. }
    intros c. apply prunes_under_bind; [|intros ns; by apply prunes_under_blind].
    unfold _get_nonces_and_cleanup.
    apply prunes_under_bind; [apply prunes_under_known_getitem|intros [a X]].
    apply prunes_under_cleanup_loop. }
  split; [apply Hprunes|]. split; [apply Hprunes|].
  intros a c s1 before h after ns s2 e s3 -> Hc Hsplit Hr Hl.
  pose proof (get_chain_nonce_tracked this this_count (JStr a) s a) as Ht.
  rewrite Hc in Ht. simpl in Ht.
  pose proof (known_blind_preserves _ s
                (known_blind_get_chain_nonce this (JStr a) this_count)) as K1.
  pose proof (known_blind_preserves _ s1
                (known_blind_resolve this before this_by_hash)) as K2.
  pose proof (known_blind_preserves _ s2
                (known_blind_lookup_nonce this h this_by_hash)) as K3.
  rewrite Hc in K1. rewrite Hr in K2. rewrite Hl in K3. simpl in *.
  assert (Hrun : get_nonce this (JStr a) s =
                 (Err e, with_known (<[a := tracked s a ∖ list_to_set
                                             (confirmed c before ns)]>) (touch a s3))).
  { unfold get_nonce. rewrite (bind_ok _ _ _ _ _ Hc).
    unfold _get_nonces_and_cleanup.
    apply bind_err. rewrite (bind_ok _ _ _ _ _ (known_getitem_touch a s1)).
    rewrite Ht, Hsplit.
    apply (cleanup_loop_interrupted a c before h after (touch a s1) (tracked s a) ns
             (touch a s2) e (touch a s3)).
    - by rewrite touch_lookup, Ht.
    - by rewrite (resolve_nonces_touch this this_by_hash), Hr.
    - rewrite !touch_with_known.
      by rewrite (known_blind_lookup_nonce this h this_by_hash), Hl. }
  rewrite Hrun. split; [done|]. simpl.
  unfold touch. destruct (known_transactions s3 !! a) eqn:E; simpl.
  - congruence.
  - rewrite insert_insert_eq. congruence.
Qed.

End PruningExtras.

(** ** ManagerWrapper *)

Section LayerExtras.

Context {runtime : Runtime}.

(** X17. The provider can be read through any number of wrappers, but
    replaced through one at most.  [setProvider] on a request manager, or
    on a wrapper directly around one, replaces the provider, and the
    wrapper then reads the new one.  Through two or more wrappers it
    raises [AttributeError], since the assignment meets the property of the
    wrapper inside, and the provider stays as it was. *)
Theorem X17_set_provider_through_wrappers (o : manager_object) (p : provider_t)
    (s : manager) :
  read_provider o s = provider s /\
  ((wrappers o <= 1)%nat ->
   object_setProvider o p s = (Ok tt, with_provider p s) /\
   read_provider o (object_setProvider o p s).2 = p) /\
  ((2 <= wrappers o)%nat ->
   object_setProvider o p s = (Err (Raised "AttributeError"), s) /\
   read_provider o (object_setProvider o p s).2 = provider s).
Proof.
  assert (Hread : forall o' s', read_provider o' s' = provider s').
  { intros o' s'. induction o' as [|o' IH]; [done|exact IH]. }
  split; [apply Hread|]. split.
  - intros Hw. destruct o as [|[|o]]; simpl in Hw; [| |lia]; by rewrite Hread.
  - intros Hw. destruct o as [|[|o]]; simpl in Hw; [lia|lia|]. by rewrite Hread.
Qed.

Variable codec : Setup.

(** X18. [request_async] is not intercepted.  Through an interceptor around
    request managers that have no other task to run (the hub would run
    those during the wait, whichever manager spawned them), a request
    spawned with [request_async] and collected with [receive_blocking],
    [eth_sendTransaction] included, reaches the provider under its own name
    with its own parameters, and is the only one to reach it: the tracking
    table and the signature manager are left alone, and the outcome is the
    one the request manager alone gives. *)
Theorem X18_async_requests_are_not_intercepted (method : string) (params : list json)
    (s : @interceptor (over_request_managers codec)) :
  let request_id := (uuid4 (world (inner s).1)).1 in
  let spawned := wrapper_request_async codec method params s in
  let received := wrapper_receive_blocking codec request_id None spawned.2 in
  settled (inner s).1 -> settled (inner s).2 ->
  spawned.1 = Ok request_id /\
  calls spawned.2 = (calls s ++ [(method, params)])%list /\
  received.1 = (receive_blocking request_id None
                  (request_async method params (inner s).1).2).1 /\
  world (inner received.2).1 =
    (provider (inner s).1 method params (uuid4 (world (inner s).1)).2).2 /\
  known_transactions received.2 = known_transactions s /\
  (inner received.2).2 = (inner s).2.
Proof.
  intros request_id spawned received Hs _.
  unfold received, spawned, wrapper_receive_blocking, wrapper_request_async, on_wrapped.
  simpl. rewrite request_async_unfold. simpl.
  destruct (receive_blocking request_id None _) as [r s'] eqn:E. simpl.
  split; [done|]. split; [done|]. split; [done|]. split; [|done].
  rewrite receive_blocking_unfold in E. simpl in E.
  unfold request_id in E. rewrite lookup_insert_eq in E.
  unfold greenlet_get in E. simpl in E.
  rewrite lookup_app_r in E by lia. rewrite Nat.sub_diag in E. simpl in E.
  rewrite run_greenlets_idle in E.
  2:{ intros g m ps Hg%elem_of_seq. simpl.
      rewrite lookup_app_l by lia. by apply settled_lookup. }
  rewrite length_app in E. simpl in E.
  replace (length (hub (inner s).1) + 1 - S (length (hub (inner s).1)))%nat
    with 0%nat in E by lia.
  unfold request_blocking, make_request, mbind, M_bind, lift_res in E. simpl in E.
  destruct (provider (inner s).1 method params (uuid4 (world (inner s).1)).2)
    as [[raw|e] w]; simpl in E; [|by injection E as _ <-].
  destruct (force_text raw) as [text|e]; simpl in E; [|by injection E as _ <-].
  destruct (json_loads text) as [response|e]; simpl in E; [|by injection E as _ <-].
  destruct (unwrap_response response) as [v|e]; simpl in E; [|by injection E as _ <-].
  by injection E as _ <-.
Qed.

End LayerExtras.

Create HintDb frozen discriminated.

Section FrozenNode.

Context {setup : Setup}.

Hypothesis node_frozen : frozen.

Lemma world_only_ret {A} (a : A) : world_only (mret a).
Proof. done. Qed.

Lemma world_only_lift {A} (r : res A) : world_only (lift_res r).
Proof. done. Qed.

Lemma world_only_bind {A B} (m : M interceptor A) (k : A -> M interceptor B) :
  world_only m -> (forall a, world_only (k a)) -> world_only (m ≫= k).
Proof.
  intros Hm Hk s s' Hi. unfold mbind, M_bind.
  destruct (Hm s s' Hi) as [E1 I1]. destruct (Hm s' s (eq_sym Hi)) as [_ I1'].
  destruct (m s) as [[a|e] s1], (m s') as [[a'|e'] s1']; simpl in *; try congruence.
  - injection E1 as <-. destruct (Hk a s1 s1') as [E2 I2]; [congruence|].
    split; [done|congruence].
  - by injection E1 as <-.
Qed.

Lemma world_only_same {A} (m m' : M interceptor A) :
  same m m' -> world_only m' -> world_only m.
Proof. intros Hs Hm s s' Hi. rewrite !Hs. by apply Hm. Qed.

Lemma world_only_direct method params : world_only (direct method params).
Proof.
  intros s s' Hi. unfold direct, wrapper_request_blocking. rewrite <- Hi.
  pose proof (proj1 node_frozen method params (inner s)) as Hf.
  by destruct (wrapped_request_blocking method params (inner s)).
Qed.

Lemma world_only_signer method params :
  world_only (signature_manager_request_blocking method params).
Proof.
  intros s s' Hi. unfold signature_manager_request_blocking. rewrite <- Hi.
  pose proof (proj2 node_frozen method params (inner s)) as Hf.
  by destruct (signer_request_blocking method params (inner s)).
Qed.

#[local] Hint Resolve world_only_ret world_only_lift world_only_bind world_only_direct
  world_only_signer : frozen.

Lemma world_only_lookup_nonce h : world_only (lookup_nonce this h).
Proof.
  apply (world_only_same _ _ (lookup_nonce_direct this this_queries h)).
  unfold lookup_nonce. auto 6 with frozen.
Qed.

Lemma world_only_get_chain_nonce addr : world_only (get_chain_nonce this addr).
Proof.
  apply (world_only_same _ _ (get_chain_nonce_direct this this_queries addr)).
  unfold get_chain_nonce. destruct cls; auto 10 with frozen.
Qed.

Lemma world_only_resolve hs : world_only (resolve_nonces this hs).
Proof.
  pose proof world_only_lookup_nonce.
  unfold resolve_nonces. induction hs as [|h hs IH]; simpl; auto 6 with frozen.
Qed.

(** On a frozen node a list of hashes resolves exactly when each hash
    does, to the nonces the single lookups give. *)
Lemma resolve_nonces_pointwise hs : forall s ns,
  (resolve_nonces this hs s).1 = Ok ns <->
  Forall2 (fun h n => (lookup_nonce this h s).1 = Ok n) hs ns.
Proof.
  induction hs as [|h hs IH]; intros s ns.
  - unfold resolve_nonces. simpl. split.
    + intros [= <-]. constructor.
    + by intros ->%Forall2_nil_inv_l.
  - rewrite resolve_nonces_cons.
    destruct (world_only_lookup_nonce h s s eq_refl) as [_ Hi].
    destruct (lookup_nonce this h s) as [[n|e] s1] eqn:El; simpl in *.
    + assert (Hsame : forall h' , (lookup_nonce this h' s1).1 = (lookup_nonce this h' s).1).
      { intros h'. by apply world_only_lookup_nonce. }
      specialize (IH s1).
      destruct (resolve_nonces this hs s1) as [[ns'|e] s2]; simpl in *; split.
      * intros [= <-]. constructor; [by rewrite El|].
        eapply Forall2_impl; [by apply IH|]. intros h' n' Hn'. by rewrite <- Hsame.
      * intros (n0 & ns0 & Hn0 & Hrest & ->)%Forall2_cons_inv_l.
        rewrite El in Hn0. injection Hn0 as <-. f_equal. f_equal.
        assert (Hok : Ok ns' = Ok ns0); [|by injection Hok].
        apply IH. eapply Forall2_impl; [exact Hrest|].
        intros h' n' Hn'. by rewrite Hsame.
      * done.
      * intros (n0 & ns0 & Hn0 & Hrest & ->)%Forall2_cons_inv_l.
        assert (Hok : Err e = Ok ns0); [|done].
        apply IH. eapply Forall2_impl; [exact Hrest|].
        intros h' n' Hn'. by rewrite Hsame.
    + split; [done|]. intros (n0 & ns0 & Hn0 & _)%Forall2_cons_inv_l.
      by rewrite El in Hn0.
Qed.

Lemma Forall2_zip_elem {Q : string -> Z -> Prop} (hs : list string) (ns : list Z) h n :
  Forall2 Q hs ns -> (h, n) ∈ zip hs ns -> Q h n.
Proof.
  intros HF. induction HF as [|h0 n0 hs ns H0 HF IH]; simpl.
  - by intros ?%elem_of_nil.
  - intros [[= -> ->]|Hin]%elem_of_cons; [done|by apply IH].
Qed.

Lemma Forall2_choose {Q : string -> Z -> Prop} (hs : list string) :
  (forall h, h ∈ hs -> exists n, Q h n) -> exists ns, Forall2 Q hs ns.
Proof.
  induction hs as [|h hs IH]; intros Hall.
  - exists []. constructor.
  - destruct (Hall h) as [n Hn]; [by left|].
    destruct IH as [ns Hns]; [intros h' Hh'; apply Hall; by right|].
    exists (n :: ns). by constructor.
Qed.

Lemma Forall2_elem_r {Q : string -> Z -> Prop} (hs : list string) (ns : list Z) n :
  Forall2 Q hs ns -> n ∈ ns -> exists h, h ∈ hs /\ Q h n.
Proof.
  intros HF. induction HF as [|h0 n0 hs ns H0 HF IH].
  - by intros ?%elem_of_nil.
  - intros [->|Hin]%elem_of_cons.
    + exists h0. split; [by left|done].
    + destruct (IH Hin) as (h & Hh & Hq). exists h. split; [by right|done].
Qed.

Lemma Forall2_elem_l {Q : string -> Z -> Prop} (hs : list string) (ns : list Z) h :
  Forall2 Q hs ns -> h ∈ hs -> exists n, n ∈ ns /\ Q h n.
Proof.
  intros HF. induction HF as [|h0 n0 hs ns H0 HF IH].
  - by intros ?%elem_of_nil.
  - intros [->|Hin]%elem_of_cons.
    + exists n0. split; [by left|done].
    + destruct (IH Hin) as (n & Hn & Hq). exists n. split; [by right|done].
Qed.

Lemma confirmed_none c (hs : list string) (ns : list Z) :
  (forall n, n ∈ ns -> c < n) -> confirmed c hs ns = [].
Proof.
  revert ns. induction hs as [|h hs IH]; intros [|n ns] Hall; simpl; try done.
  destruct (Z.leb_spec n c) as [Hle|_].
  - specialize (Hall n ltac:(by left)). lia.
  - apply IH. intros m Hm. apply Hall. by right.
Qed.

(** X19. While the node and the key holder answer as before, [get_nonce]
    is idempotent: called again right after it has returned, it returns
    the same nonce and removes nothing more. *)
Theorem X19_get_nonce_idempotent_on_frozen_node (a : string) (s : interceptor)
    (n : Z) (s1 : interceptor) :
  get_nonce this (JStr a) s = (Ok n, s1) ->
  (get_nonce this (JStr a) s1).1 = Ok n /\
  known_transactions (get_nonce this (JStr a) s1).2 = known_transactions s1.
Proof.
  intros Hg.
  destruct (get_nonce_inv this this_count this_by_hash a s n s1 Hg)
    as (c & sc & ns & sr & Hc & Hr & -> & ->).
  set (hs := order (tracked s a)) in *.
  set (s1 := with_known (pruned a c ns s) sr) in *.
  (* the world is where it was *)
  assert (Isc : inner sc = inner s).
  { destruct (world_only_get_chain_nonce (JStr a) s s eq_refl) as [_ Hi].
    by rewrite Hc in Hi. }
  assert (Isr : inner sr = inner sc).
  { destruct (world_only_resolve hs sc sc eq_refl) as [_ Hi]. by rewrite Hr in Hi. }
  assert (Is1 : inner s1 = inner s) by (unfold s1; simpl; congruence).
  (* the first pass, hash by hash *)
  assert (Hfirst : Forall2 (fun h m => (lookup_nonce this h sc).1 = Ok m) hs ns).
  { apply resolve_nonces_pointwise. by rewrite Hr. }
  pose proof (resolve_nonces_length this hs sc ns sr Hr) as Hlen.
  (* the second call sees the same chain nonce *)
  destruct (get_chain_nonce this (JStr a) s1) as [r sc'] eqn:Hc'.
  assert (r = Ok c) as ->.
  { destruct (world_only_get_chain_nonce (JStr a) s1 s Is1) as [Ho _].
    rewrite Hc', Hc in Ho. done. }
  assert (Isc' : inner sc' = inner sc).
  { destruct (world_only_get_chain_nonce (JStr a) s1 s1 eq_refl) as [_ Hi].
    rewrite Hc' in Hi. simpl in Hi. congruence. }
  assert (Ht1 : tracked s1 a = tracked s a ∖ list_to_set (confirmed c hs ns)).
  { unfold s1. apply tracked_pruned. }
  set (hs' := order (tracked s1 a)).
  (* every hash still tracked resolves as before, above the chain nonce *)
  assert (Hevery : forall h, h ∈ hs' ->
            exists m, ((h, m) ∈ zip hs ns /\ c < m) /\ (lookup_nonce this h sc').1 = Ok m).
  { intros h Hh. apply order_elem in Hh. rewrite Ht1 in Hh.
    apply elem_of_difference in Hh as [Hin Hnot].
    destruct (zip_total hs ns h Hlen) as [m Hm]; [by apply order_elem|].
    exists m. split; [split; [done|]|].
    - destruct (decide (c < m)); [done|]. exfalso.
      apply Hnot, elem_of_list_to_set. eapply confirmed_elem; [done|lia].
    - destruct (world_only_lookup_nonce h sc' sc Isc') as [-> _].
      by apply (Forall2_zip_elem hs ns h m Hfirst). }
  destruct (Forall2_choose hs' Hevery) as [ns' Hsecond].
  assert (Hr' : (resolve_nonces this hs' sc').1 = Ok ns').
  { apply resolve_nonces_pointwise. eapply Forall2_impl; [exact Hsecond|].
    by intros h m [_ ?]. }
  destruct (resolve_nonces this hs' sc') as [r' sr'] eqn:Hr''. simpl in Hr'. subst r'.
  rewrite (get_nonce_ok this this_count this_by_hash a s1 c sc' ns' sr' Hc' Hr''). simpl.
  assert (Habove : forall m, m ∈ ns' -> c < m).
  { intros m Hm. destruct (Forall2_elem_r hs' ns' m Hsecond Hm) as (h & _ & [[_ ?] _]).
    done. }
  split.
  - f_equal. rewrite <- (py_max_filter c ns). apply py_max_members. intros m. split.
    + intros Hm. apply list_elem_of_filter. split; [by apply Habove|].
      destruct (Forall2_elem_r hs' ns' m Hsecond Hm) as (h & _ & [[Hz _] _]).
      by apply elem_of_zip_r in Hz.
    + intros [Hgt Hm]%list_elem_of_filter.
      destruct (zip_total_r hs ns m Hlen Hm) as [h Hz].
      assert (Hh' : h ∈ hs').
      { apply order_elem. rewrite Ht1. apply elem_of_difference. split.
        - apply order_elem. by apply elem_of_zip_l in Hz.
        - intros (m' & Hz' & Hle)%elem_of_list_to_set%confirmed_inv.
          pose proof (zip_functional hs ns h m m' (order_NoDup _) Hz Hz'). lia. }
      destruct (Forall2_elem_l hs' ns' h Hsecond Hh') as (m' & Hm' & [[Hz' _] _]).
      by rewrite (zip_functional hs ns h m m' (order_NoDup _) Hz Hz').
  - unfold pruned. fold hs'. rewrite (confirmed_none c hs' ns' Habove). simpl.
    rewrite difference_empty_L.
    assert (Hk : known_transactions sr' = known_transactions s1).
    { pose proof (known_blind_preserves _ sc'
                    (known_blind_resolve this hs' this_by_hash)) as K2.
      pose proof (known_blind_preserves _ s1
                    (known_blind_get_chain_nonce this (JStr a) this_count)) as K1.
      rewrite Hr'' in K2. rewrite Hc' in K1. simpl in *. congruence. }
    rewrite Hk. apply insert_id.
    rewrite Ht1. unfold s1, pruned. simpl. by rewrite lookup_insert_eq.
Qed.

End FrozenNode.

(** ** The further properties at concrete inputs *)

Lemma X1_request_blocking_non_object_raises_witness :
  @request_blocking array_runtime "eth_accounts" [] array_manager =
    (Err TypeError, array_manager).
Proof.
  apply (X1_request_blocking_non_object_raises (runtime := array_runtime)
           array_manager "eth_accounts" [] "[]" tt "[]" (JArr [JStr "error"]));
    [reflexivity..|discriminate].
Defined.

(** Two requests in flight and a wait for the second: the hub runs the
    first on the way. *)
Lemma X3_async_failure_surfaces_at_receive_witness :
  (hub (@receive_blocking scripted_runtime "0x1" None two_in_flight).2 !! 0%nat =
     Some (Finished (Ok (JBool true)))) /\
  (@receive_blocking scripted_runtime "0x1" None two_in_flight).1 =
    Err (ValueError (JStr "unknown method")) /\
  (@receive_blocking scripted_runtime "0x1" (Some 0%nat)
     (run [Schedule 0%nat; Schedule 1%nat] two_in_flight)).1 =
    Err (ValueError (JStr "unknown method")).
Proof.
  destruct (X3_async_failure_surfaces_at_receive (runtime := scripted_runtime)
              two_in_flight "0x1" 1%nat "eth_unknown" []
              (ValueError (JStr "unknown method")))
    as [Hwait Hdone]; [by vm_compute..|].
  split; [by vm_compute|]. split; [exact Hwait|exact (Hdone (Some 0%nat))].
Defined.


Lemma X5_set_provider_reaches_spawned_tasks_witness :
  world (@receive_blocking scripted_runtime "0x0" None
           (run [Request_async "net_listening" []; Set_provider counting_provider]
              fresh_manager)).2 = 101%nat.
Proof.
  apply (proj2 (X5_set_provider_reaches_spawned_tasks (runtime := scripted_runtime)
                  fresh_manager "net_listening" [] counting_provider)).
  reflexivity.
Defined.

Lemma X7_other_methods_pass_through_witness :
  this "eth_gasPrice" [] two_outstanding =
    wrapper_request_blocking "eth_gasPrice" [] two_outstanding /\
  known_transactions (this "eth_gasPrice" [] two_outstanding).2 =
    known_transactions two_outstanding /\
  calls (this "eth_gasPrice" [] two_outstanding).2 =
    (calls two_outstanding ++ [("eth_gasPrice", [])])%list.
Proof. apply X7_other_methods_pass_through. compute_done. Defined.

Lemma X8_base_class_never_broadcasts_witness :
  (exists e, (this "eth_sendTransaction" send_from_AA two_outstanding).1 = Err e) /\
  (exists new,
     calls (this "eth_sendTransaction" send_from_AA two_outstanding).2 =
       (calls two_outstanding ++ new)%list /\
     Forall (fun c => c.1 ∈ @queries) new).
Proof. apply X8_base_class_never_broadcasts. reflexivity. Defined.

Lemma X9_lookup_failure_loses_the_hash_witness :
  this "eth_sendRawTransaction" [JStr "0xf86b"] hash_not_found =
    (Err TypeError, (this "eth_sendRawTransaction" [JStr "0xf86b"] hash_not_found).2).
Proof.
  eapply (proj2 (proj2 (X9_lookup_failure_loses_the_hash "eth_sendRawTransaction"
            [JStr "0xf86b"] hash_not_found (JStr "0xunknown")
            (wrapper_request_blocking "eth_sendRawTransaction" [JStr "0xf86b"]
               hash_not_found).2 _ _ _))).
  by vm_compute.
  Unshelve.
  - compute_done.
  - discriminate.
  - by vm_compute.
Defined.

Lemma X11_construction_always_asks_the_node_witness :
  construct_full_transaction this (JObj complete_transaction) two_outstanding =
    (Ok complete_transaction,
     (construct_full_transaction this (JObj complete_transaction) two_outstanding).2).
Proof.
  apply (proj1 (X11_construction_always_asks_the_node complete_transaction
                  (JStr "0xAA") two_outstanding eq_refl)
           8 (get_nonce this (JStr "0xAA") two_outstanding).2 (JStr "0x4a817c800")).
  - intros k Hk.
    repeat (apply elem_of_cons in Hk as [->|Hk]; [by vm_compute; eexists|]).
    by apply elem_of_nil in Hk.
  - by vm_compute.
  - by vm_compute.
Defined.

Lemma X12_get_nonce_with_nothing_tracked_witness :
  get_nonce this (JStr "0xAA") nothing_tracked =
    (Ok 5, with_known (<["0xAA" := ∅]>)
             (get_chain_nonce this (JStr "0xAA") nothing_tracked).2).
Proof.
  apply (X12_get_nonce_with_nothing_tracked "0xAA" nothing_tracked 5); by vm_compute.
Defined.

Lemma X13_delegated_chain_nonce_witness :
  (get_chain_nonce this (JStr "0xAA") signer_up).1 = Ok 5.
Proof.
  rewrite (proj1 (X13_delegated_chain_nonce this (JStr "0xAA") signer_up eq_refl)
             (JStr "0x3") (inner signer_up) 3 (JStr "0x5") (inner signer_up) 5
             eq_refl eq_refl eq_refl eq_refl).
  reflexivity.
Defined.

Lemma X16_get_nonce_only_prunes_witness :
  (get_nonce this (JStr "0xAA") one_lost).1 = Err TypeError /\
  ("0xfeed" ∈ tracked one_lost "0xAA") /\
  (tracked (get_nonce this (JStr "0xAA") one_lost).2 "0xAA" = {[ "0xcafe"; "0xdead" ]}).
Proof.
  destruct (proj2 (proj2 (X16_get_nonce_only_prunes (JStr "0xAA") one_lost))
              "0xAA" 5 (get_chain_nonce this (JStr "0xAA") one_lost).2
              ["0xcafe"; "0xfeed"] "0xdead" [] [7; 2]
              (resolve_nonces this ["0xcafe"; "0xfeed"]
                 (get_chain_nonce this (JStr "0xAA") one_lost).2).2
              TypeError
              (lookup_nonce this "0xdead"
                 (resolve_nonces this ["0xcafe"; "0xfeed"]
                    (get_chain_nonce this (JStr "0xAA") one_lost).2).2).2)
    as [Hraise Htable]; [reflexivity|by vm_compute..|].
  split; [exact Hraise|]. split; [compute_done|].
  unfold tracked at 1. rewrite Htable, lookup_insert_eq. simpl.
  apply leibniz_equiv. compute_done.
Defined.

Lemma X17_set_provider_through_wrappers_witness :
  object_setProvider (A_ManagerWrapper A_RequestManager) counting_provider fresh_manager =
    (Ok tt, with_provider counting_provider fresh_manager) /\
  object_setProvider (A_ManagerWrapper (A_ManagerWrapper A_RequestManager))
    counting_provider fresh_manager =
    (Err (Raised "AttributeError"), fresh_manager).
Proof.
  split.
  - apply (proj1 (proj2 (X17_set_provider_through_wrappers (runtime := scripted_runtime)
                           (A_ManagerWrapper A_RequestManager)
                           counting_provider fresh_manager))).
    simpl. lia.
  - apply (proj2 (proj2 (X17_set_provider_through_wrappers (runtime := scripted_runtime)
                           (A_ManagerWrapper (A_ManagerWrapper A_RequestManager))
                           counting_provider fresh_manager))).
    simpl. lia.
Defined.

Lemma X18_async_requests_are_not_intercepted_witness :
  calls (wrapper_request_async (scripted BaseSendRawTransactionMixin)
           "eth_sendTransaction" send_from_AA stacked).2 =
    [("eth_sendTransaction", send_from_AA)] /\
  known_transactions
    (wrapper_receive_blocking (scripted BaseSendRawTransactionMixin) "0x0" None
       (wrapper_request_async (scripted BaseSendRawTransactionMixin)
          "eth_sendTransaction" send_from_AA stacked).2).2 = ∅.
Proof.
  destruct (X18_async_requests_are_not_intercepted (runtime := scripted_runtime)
              (scripted BaseSendRawTransactionMixin)
              "eth_sendTransaction" send_from_AA stacked)
    as (_ & Hcalls & _ & _ & Htable & _); [reflexivity..|].
  split; [exact Hcalls|exact Htable].
Defined.

Lemma scripted_frozen (c : manager_class) : @frozen (scripted c).
Proof.
  split; intros method params w; simpl.
  - unfold node_request_blocking.
    repeat (destruct (String.eqb method _); [try done|]); [|done].
    by destruct params as [|[] []].
  - unfold signer_node_request_blocking.
    by repeat (destruct (String.eqb method _); [done|]).
Qed.

Lemma X19_get_nonce_idempotent_on_frozen_node_witness :
  (get_nonce this (JStr "0xAA") (get_nonce this (JStr "0xAA") one_confirmed).2).1 = Ok 8 /\
  known_transactions
    (get_nonce this (JStr "0xAA") (get_nonce this (JStr "0xAA") one_confirmed).2).2 =
  known_transactions (get_nonce this (JStr "0xAA") one_confirmed).2.
Proof.
  apply (X19_get_nonce_idempotent_on_frozen_node (scripted_frozen _) "0xAA" one_confirmed 8).
  by vm_compute.
Defined.

Lemma X15_three_nested_calls_suffice_witness :
  bound_request_blocking 5 "eth_sendTransaction" send_from_AA signer_up =
    this "eth_sendTransaction" send_from_AA signer_up.
Proof. apply X15_three_nested_calls_suffice. lia. Defined.
